(** * Verification of the grading pipeline of canvas-auto-grade

    Shallow embedding of the TypeScript sources:
    - [src/services/content-extractor.ts]  ResultStorage
    - [src/services/grader.ts]             GradingService.gradeSubmission / parseResponse
    - [src/services/file-parser.ts]        parseFileName / getSubmissionFiles
    - [unnamed/part_004]                   LLMService.batchProcess / getBatchResult
    - [src/assignment-processor.ts]        AssignmentProcessor.processAssignment
    - [src/llm-api.ts]                     parseGradingResponse / gradeSubmission
    - [src/services/content-extractor.ts]  ContentExtractionService.extractContent
    - [src/services/file-parser.ts]        loadQuestions
    - [unnamed/part_009]                   processSubmission / main

    JavaScript strings are sequences of UTF-16 code units, modelled as
    [list N].  JavaScript numbers are modelled as exact rationals plus the
    two infinities and NaN (no rounding).  The parts of the JavaScript
    engine that the code does not decide (the text of native error messages,
    Number.prototype.toString, the clock) are Section variables. *)

From Stdlib Require Import List String Ascii NArith ZArith QArith Bool Lia Lqa Permutation.
Import ListNotations.
#[local] Set Warnings "-register-all".


Open Scope N_scope.

(** ** JavaScript strings *)

Definition jstr := list N.

(** An ASCII literal as a JS string. *)
Definition js (s : string) : jstr :=
  map (fun c => N_of_ascii c) (list_ascii_of_string s).

(** The double quote character, which cannot appear in a literal here. *)
Definition dq : jstr := [34].

Fixpoint jstr_eqb (a b : jstr) : bool :=
  match a, b with
  | [], [] => true
  | x :: a', y :: b' => N.eqb x y && jstr_eqb a' b'
  | _, _ => false
  end.

(** [s] starts with [p]; returns the rest. *)
Fixpoint strip_prefix (p s : jstr) : option jstr :=
  match p, s with
  | [], _ => Some s
  | x :: p', y :: s' => if N.eqb x y then strip_prefix p' s' else None
  | _ :: _, [] => None
  end.

Definition is_digit (c : N) : bool := (48 <=? c) && (c <=? 57).

(** The ECMAScript [\s] class: WhiteSpace and LineTerminator code units. *)
Definition is_js_space (c : N) : bool :=
  existsb (N.eqb c)
    [9; 10; 11; 12; 13; 32; 160; 5760; 8232; 8233; 8239; 8287; 12288; 65279]
  || ((8192 <=? c) && (c <=? 8202)).

(** The code units that [.] does not match (line terminators). *)
Definition is_line_terminator (c : N) : bool :=
  existsb (N.eqb c) [10; 13; 8232; 8233].

Fixpoint skip_js_space (s : jstr) : jstr :=
  match s with
  | c :: s' => if is_js_space c then skip_js_space s' else s
  | [] => []
  end.

(** ** JavaScript values and exceptions *)

(** A JavaScript number. *)
Inductive num : Type :=
| NFin (q : Q)
| NInf (neg : bool)
| NNaN.

(** A value produced by [JSON.parse]. Objects keep their members in source
    order, duplicates included. *)
Inductive json : Type :=
| JNull
| JBool (b : bool)
| JNum (n : num)
| JStr (s : jstr)
| JArr (l : list json)
| JObj (m : list (jstr * json)).

(** Exceptions thrown inside the modelled code. *)
Inductive exn : Type :=
| SyntaxError            (* thrown by JSON.parse *)
| TypeError              (* property access on null, non-callable method *)
| Error (msg : jstr).    (* new Error(msg) *)

(** Computations of a [try] block: a value, or a thrown exception. *)
Inductive Exc (A : Type) : Type :=
| Ret (a : A)
| Throw (e : exn).
Arguments Ret {A} a.
Arguments Throw {A} e.

Definition bind {A B} (m : Exc A) (k : A -> Exc B) : Exc B :=
  match m with Ret a => k a | Throw e => Throw e end.

Notation "x <- m ;; k" := (bind m (fun x => k))
  (at level 61, m at next level, right associativity).

(** [try { m } catch (e) { h(e) }] *)
Definition try_catch {A} (m : Exc A) (h : exn -> A) : A :=
  match m with Ret a => a | Throw e => h e end.

(** ** JSON.parse (ECMA-404 grammar) *)

Definition is_json_ws (c : N) : bool := existsb (N.eqb c) [9; 10; 13; 32].

Fixpoint skip_json_ws (s : jstr) : jstr :=
  match s with
  | c :: s' => if is_json_ws c then skip_json_ws s' else s
  | [] => []
  end.

Definition hex_val (c : N) : option N :=
  if (48 <=? c) && (c <=? 57) then Some (c - 48)
  else if (65 <=? c) && (c <=? 70) then Some (c - 55)
  else if (97 <=? c) && (c <=? 102) then Some (c - 87)
  else None.

(** Body of a string literal after the opening quote; returns the decoded
    code units and the input after the closing quote. *)
Fixpoint json_string_body (s : jstr) : option (jstr * jstr) :=
  match s with
  | [] => None
  | 34 :: rest => Some ([], rest)
  | 92 :: 117 :: a :: b :: c :: d :: rest =>
      match hex_val a, hex_val b, hex_val c, hex_val d with
      | Some a, Some b, Some c, Some d =>
          match json_string_body rest with
          | Some (v, r) => Some ((((a * 16 + b) * 16 + c) * 16 + d) :: v, r)
          | None => None
          end
      | _, _, _, _ => None
      end
  | 92 :: e :: rest =>
      let dec :=
        match e with
        | 34 => Some 34 | 92 => Some 92 | 47 => Some 47
        | 98 => Some 8 | 102 => Some 12 | 110 => Some 10
        | 114 => Some 13 | 116 => Some 9 | _ => None
        end in
      match dec with
      | Some ch =>
          match json_string_body rest with
          | Some (v, r) => Some (ch :: v, r)
          | None => None
          end
      | None => None
      end
  | c :: rest =>
      if c <? 32 then None
      else match json_string_body rest with
           | Some (v, r) => Some (c :: v, r)
           | None => None
           end
  end.

(** Longest prefix of decimal digits. *)
Fixpoint take_digits (s : jstr) : jstr * jstr :=
  match s with
  | c :: s' => if is_digit c then let (d, r) := take_digits s' in (c :: d, r)
               else ([], s)
  | [] => ([], [])
  end.

Definition digits_value (d : jstr) : Z :=
  fold_left (fun acc c => (acc * 10 + Z.of_N (c - 48))%Z) d 0%Z.

(** The exact value of [int.frac * 10^exp] (with [int] and [frac] digit
    strings) as a rational. *)
Definition decimal_value (neg : bool) (int frac : jstr) (e : Z) : Q :=
  let m := digits_value (int ++ frac) in
  let m := if neg then (- m)%Z else m in
  let k := (e - Z.of_nat (List.length frac))%Z in
  if (0 <=? k)%Z then inject_Z (m * 10 ^ k)
  else Qmake m (Z.to_pos (10 ^ (- k))).

(** Optional exponent part [e/E, sign, digits]; [None] when the exponent
    marker is present but malformed. *)
Definition json_exponent (s : jstr) : option (Z * jstr) :=
  match s with
  | c :: s' =>
      if (c =? 101) || (c =? 69) then
        let '(neg, s'') :=
          match s' with
          | 45 :: t => (true, t) | 43 :: t => (false, t) | _ => (false, s')
          end in
        match take_digits s'' with
        | ([], _) => None
        | (d, r) => Some ((if neg then - digits_value d else digits_value d)%Z, r)
        end
      else Some (0%Z, s)
  | [] => Some (0%Z, [])
  end.

(** A JSON number: [-? (0 | [1-9][0-9]* ) (. [0-9]+)? ([eE] [+-]? [0-9]+)?]. *)
Definition json_number (s : jstr) : option (json * jstr) :=
  let '(neg, s1) := match s with 45 :: t => (true, t) | _ => (false, s) end in
  let int_part :=
    match s1 with
    | 48 :: t => Some ([48], t)
    | c :: _ => if is_digit c then Some (take_digits s1) else None
    | [] => None
    end in
  match int_part with
  | None => None
  | Some (int, s2) =>
      let frac_part :=
        match s2 with
        | 46 :: t => match take_digits t with
                     | ([], _) => None
                     | (f, r) => Some (f, r)
                     end
        | _ => Some ([], s2)
        end in
      match frac_part with
      | None => None
      | Some (frac, s3) =>
          match json_exponent s3 with
          | None => None
          | Some (e, s4) => Some (JNum (NFin (decimal_value neg int frac e)), s4)
          end
      end
  end.

(** Values, arrays and objects; [fuel] bounds the nesting and the number of
    members (each step consumes at least one code unit). *)
Fixpoint json_value (fuel : nat) (s : jstr) : option (json * jstr) :=
  match fuel with
  | O => None
  | S f =>
      match skip_json_ws s with
      | 123 :: rest =>
          match skip_json_ws rest with
          | 125 :: r => Some (JObj [], r)
          | _ => match json_members f rest [] with
                 | Some (m, r) => Some (JObj m, r)
                 | None => None
                 end
          end
      | 91 :: rest =>
          match skip_json_ws rest with
          | 93 :: r => Some (JArr [], r)
          | _ => match json_elements f rest [] with
                 | Some (l, r) => Some (JArr l, r)
                 | None => None
                 end
          end
      | 34 :: rest =>
          match json_string_body rest with
          | Some (v, r) => Some (JStr v, r)
          | None => None
          end
      | 116 :: 114 :: 117 :: 101 :: r => Some (JBool true, r)
      | 102 :: 97 :: 108 :: 115 :: 101 :: r => Some (JBool false, r)
      | 110 :: 117 :: 108 :: 108 :: r => Some (JNull, r)
      | s' => json_number s'
      end
  end
with json_members (fuel : nat) (s : jstr) (acc : list (jstr * json))
  : option (list (jstr * json) * jstr) :=
  match fuel with
  | O => None
  | S f =>
      match skip_json_ws s with
      | 34 :: rest =>
          match json_string_body rest with
          | Some (k, r1) =>
              match skip_json_ws r1 with
              | 58 :: r2 =>
                  match json_value f r2 with
                  | Some (v, r3) =>
                      match skip_json_ws r3 with
                      | 44 :: r4 => json_members f r4 (acc ++ [(k, v)])
                      | 125 :: r4 => Some (acc ++ [(k, v)], r4)
                      | _ => None
                      end
                  | None => None
                  end
              | _ => None
              end
          | None => None
          end
      | _ => None
      end
  end
with json_elements (fuel : nat) (s : jstr) (acc : list json)
  : option (list json * jstr) :=
  match fuel with
  | O => None
  | S f =>
      match json_value f s with
      | Some (v, r1) =>
          match skip_json_ws r1 with
          | 44 :: r2 => json_elements f r2 (acc ++ [v])
          | 93 :: r2 => Some (acc ++ [v], r2)
          | _ => None
          end
      | None => None
      end
  end.

(** [JSON.parse(text)]: one value, surrounded by whitespace only. *)
Definition JSON_parse (text : jstr) : Exc json :=
  match json_value (S (List.length text)) text with
  | Some (v, rest) =>
      match skip_json_ws rest with [] => Ret v | _ => Throw SyntaxError end
  | None => Throw SyntaxError
  end.

(** ** Records of the grading pipeline *)

(** [GradingResult] of [src/types/index.ts]; [grade] holds whatever value the
    parser stores there, hence a [json] value. *)
Record GradingResult : Type := mkResult {
  studentId : jstr;
  questionId : jstr;
  grade : json;
  comment : jstr;
  gradedAt : jstr
}.

(** [SubmissionInfo] as built by [parseFileName] in
    [src/services/file-parser.ts]. *)
Record SubmissionInfo : Type := mkSubmission {
  studentNumber : jstr;
  sub_studentId : jstr;
  sub_questionId : jstr;
  submissionId : jstr;
  files : list jstr
}.

(** ** Number parsing shared by parseFloat and ToNumber *)

Fixpoint take_while (p : N -> bool) (s : jstr) : jstr * jstr :=
  match s with
  | c :: s' => if p c then let (d, r) := take_while p s' in (c :: d, r)
               else ([], s)
  | [] => ([], [])
  end.

(** An optional exponent of a StrDecimalLiteral; left unconsumed when it is
    not followed by digits. *)
Definition str_exponent (s : jstr) : Z * jstr :=
  match s with
  | c :: s' =>
      if (c =? 101) || (c =? 69) then
        let '(neg, s'') :=
          match s' with
          | 45 :: t => (true, t) | 43 :: t => (false, t) | _ => (false, s')
          end in
        match take_digits s'' with
        | ([], _) => (0%Z, s)
        | (d, r) => ((if neg then - digits_value d else digits_value d)%Z, r)
        end
      else (0%Z, s)
  | [] => (0%Z, [])
  end.

(** The longest prefix of [s] that is a StrDecimalLiteral, with its value. *)
Definition decimal_prefix (s : jstr) : option (num * jstr) :=
  let '(neg, s1) :=
    match s with 45 :: t => (true, t) | 43 :: t => (false, t) | _ => (false, s) end in
  match strip_prefix (js "Infinity") s1 with
  | Some r => Some (NInf neg, r)
  | None =>
      let (int, s2) := take_digits s1 in
      let '(frac, s3) :=
        match s2 with 46 :: t => take_digits t | _ => ([], s2) end in
      match int, frac with
      | [], [] => None
      | _, _ =>
          let (e, s4) := str_exponent s3 in
          Some (NFin (decimal_value neg int frac e), s4)
      end
  end.

(** [parseFloat(s)]. *)
Definition parseFloat (s : jstr) : num :=
  match decimal_prefix (skip_js_space s) with
  | Some (n, _) => n
  | None => NNaN
  end.

Definition num_is_nan (n : num) : bool :=
  match n with NNaN => true | _ => false end.

Definition trim (s : jstr) : jstr := rev (skip_js_space (rev (skip_js_space s))).

Definition is_hex (c : N) : bool := match hex_val c with Some _ => true | None => false end.

(** [0x..], [0o..], [0b..] literals accepted by StringToNumber. *)
Definition non_decimal_literal (s : jstr) : bool :=
  match s with
  | 48 :: p :: (_ :: _) as ds =>
      if (p =? 120) || (p =? 88) then forallb is_hex ds
      else if (p =? 111) || (p =? 79) then forallb (fun c => (48 <=? c) && (c <=? 55)) ds
      else if (p =? 98) || (p =? 66) then forallb (fun c => (c =? 48) || (c =? 49)) ds
      else false
  | _ => false
  end.

(** [isNaN(Number(s))] for a string [s] (StringToNumber). *)
Definition string_is_nan (s : jstr) : bool :=
  let t := trim s in
  match t with
  | [] => false
  | _ => if non_decimal_literal t then false
         else match decimal_prefix t with
              | Some (_, []) => false
              | _ => true
              end
  end.

(** ** Property access and conversions on parsed values *)

Definition lookup_last (k : jstr) (m : list (jstr * json)) : option json :=
  fold_left (fun acc kv => if jstr_eqb (fst kv) k then Some (snd kv) else acc) m None.

Definition has_key (k : jstr) (m : list (jstr * json)) : bool :=
  existsb (fun kv => jstr_eqb (fst kv) k) m.

(** [v.k] on a parsed value: [None] is [undefined]. *)
Definition get_prop (v : json) (k : jstr) : Exc (option json) :=
  match v with
  | JNull => Throw TypeError
  | JObj m => Ret (lookup_last k m)
  | _ => Ret None
  end.

Section JsEngine.

(** Number.prototype.toString of a finite number. *)
Variable num_to_string : Q -> jstr.
(** The message of an exception raised by the engine itself. *)
Variable native_message : exn -> jstr.
(** [new Date().toLocaleString('zh-CN', ...)]. *)
Variable now : jstr.

Definition number_to_string (n : num) : jstr :=
  match n with
  | NFin q => num_to_string q
  | NInf false => js "Infinity"
  | NInf true => js "-Infinity"
  | NNaN => js "NaN"
  end.

(** The abstract operation ToString.  An object parsed from JSON whose own
    member [toString] is not callable makes ToPrimitive throw; arrays go
    through Array.prototype.join, where null elements become empty. *)
Fixpoint js_ToString (v : json) : Exc jstr :=
  match v with
  | JNull => Ret (js "null")
  | JBool true => Ret (js "true")
  | JBool false => Ret (js "false")
  | JNum n => Ret (number_to_string n)
  | JStr s => Ret s
  | JArr l =>
      let fix join (l : list json) : Exc jstr :=
        match l with
        | [] => Ret []
        | x :: rest =>
            s <- (match x with JNull => Ret [] | _ => js_ToString x end);;
            match rest with
            | [] => Ret s
            | _ => t <- join rest;; Ret (s ++ [44] ++ t)
            end
        end in
      join l
  | JObj m =>
      if has_key (js "toString") m then Throw TypeError
      else Ret (js "[object Object]")
  end.

(** The method call [v.toString()]. *)
Definition method_toString (v : json) : Exc jstr :=
  match v with
  | JNull => Throw TypeError
  | _ => js_ToString v
  end.

(** [isNaN(v)], i.e. ToNumber followed by the NaN test. *)
Definition is_nan (v : json) : Exc bool :=
  match v with
  | JNull => Ret false
  | JBool _ => Ret false
  | JNum n => Ret (num_is_nan n)
  | JStr s => Ret (string_is_nan s)
  | JArr _ => s <- js_ToString v;; Ret (string_is_nan s)
  | JObj m => if has_key (js "toString") m then Throw TypeError else Ret true
  end.

(** [error instanceof Error ? error.message : 'Unknown error']: every
    exception raised here is an Error. *)
Definition error_message (e : exn) : jstr :=
  match e with
  | Error m => m
  | _ => native_message e
  end.

(** ** GradingService.parseResponse (src/services/grader.ts) *)

(** Lazy [(.*?)] followed by a double quote: the code units before the
    first double quote, provided no line terminator comes first. *)
Fixpoint lazy_until_quote (s : jstr) : option jstr :=
  match s with
  | [] => None
  | 34 :: _ => Some []
  | c :: rest =>
      if is_line_terminator c then None
      else match lazy_until_quote rest with
           | Some t => Some (c :: t)
           | None => None
           end
  end.

Definition is_digit_or_dot (c : N) : bool := is_digit c || (c =? 46).

(** The regular expression of the fallback in [parseResponse]: the
    double-quoted word grade, a colon, [\s*], the capture [([\d.]+)], a comma,
    [\s*], the double-quoted word comment, a colon, [\s*], a double quote, the
    lazy capture [(.*?)] and a double quote;
    anchored at the start of [s]; returns the two capture groups.  The
    greedy [\s*] and [[\d.]+] are followed by characters they cannot
    match, so their longest match is the only one that can succeed. *)
Definition grade_regex_at (s : jstr) : option (jstr * jstr) :=
  match strip_prefix (dq ++ js "grade" ++ dq ++ js ":") s with
  | None => None
  | Some r1 =>
      let (g, r3) := take_while is_digit_or_dot (skip_js_space r1) in
      match g, r3 with
      | _ :: _, 44 :: r4 =>
          match strip_prefix (dq ++ js "comment" ++ dq ++ js ":") (skip_js_space r4) with
          | Some r5 =>
              match skip_js_space r5 with
              | 34 :: r6 =>
                  match lazy_until_quote r6 with
                  | Some c => Some (g, c)
                  | None => None
                  end
              | _ => None
              end
          | None => None
          end
      | _, _ => None
      end
  end.

(** [response.match(regex)]: the leftmost match. *)
Fixpoint grade_regex_search (s : jstr) : option (jstr * jstr) :=
  match grade_regex_at s with
  | Some m => Some m
  | None => match s with [] => None | _ :: t => grade_regex_search t end
  end.

Definition result_of (sid qid : jstr) (g : json) (c : jstr) : GradingResult :=
  {| studentId := sid; questionId := qid; grade := g; comment := c; gradedAt := now |}.

(** The [try] block of [parseResponse]. *)
Definition parse_try (response sid qid : jstr) : Exc GradingResult :=
  data <- JSON_parse response;;
  g <- get_prop data (js "grade");;
  match g with
  | None => Throw (Error (js "Invalid response format"))
  | Some _ =>
      c <- get_prop data (js "comment");;
      match c with
      | None => Throw (Error (js "Invalid response format"))
      | Some _ =>
          g <- get_prop data (js "grade");;
          let gv := match g with Some v => v | None => JNull end in
          let grade := match gv with JStr s => JNum (parseFloat s) | v => v end in
          nan <- is_nan grade;;
          c <- get_prop data (js "comment");;
          let cv := match c with Some v => v | None => JNull end in
          comment <- method_toString cv;;
          Ret (result_of sid qid (if nan then JNum (NFin 0) else grade) comment)
      end
  end.

(** The [catch] block of [parseResponse]: regular-expression fallback, then
    the parse-failure result. *)
Definition parse_catch (response sid qid : jstr) (e : exn) : GradingResult :=
  match grade_regex_search response with
  | Some (g, c) =>
      let n := parseFloat g in
      result_of sid qid (JNum (if num_is_nan n then NFin 0 else n)) c
  | None =>
      result_of sid qid (JNum (NFin 0))
        (js "> Error parsing grading response: " ++ error_message e)
  end.

Definition parseResponse (response sid qid : jstr) : GradingResult :=
  try_catch (parse_try response sid qid) (parse_catch response sid qid).

(** ** GradingService.gradeSubmission (src/services/grader.ts) *)

(** The [try] block; [llm] is the outcome of [this.llm.getResponse(prompt)]
    for the submission's prompt (a string, or the exception it raised). *)
Definition grade_try (submission : SubmissionInfo) (llm : Exc jstr)
  : Exc GradingResult :=
  response <- llm;;
  match response with
  | [] => Throw (Error (js "Empty response from LLM"))
  | _ =>
      let r := parseResponse response submission.(sub_studentId)
                 submission.(sub_questionId) in
      (* logger.info(`... score: ${gradingResult.grade}/${maxPoint}`) *)
      _ <- js_ToString r.(grade);;
      Ret r
  end.

Definition grade_catch (submission : SubmissionInfo) (e : exn) : GradingResult :=
  result_of submission.(sub_studentId) submission.(sub_questionId) (JNum (NFin 0))
    (js "> Error grading submission: " ++ error_message e).

(** The function has no path that throws: its result is a GradingResult. *)
Definition gradeSubmission (submission : SubmissionInfo) (llm : Exc jstr)
  : GradingResult :=
  try_catch (grade_try submission llm) (grade_catch submission).

End JsEngine.

(** ** ResultStorage (src/services/content-extractor.ts) *)

Module ResultStorage.

(** The in-memory array [this.results]. *)
Definition store := list GradingResult.

(** [addResult(result)]: [this.results.push(result)]. *)
Definition addResult (result : GradingResult) (results : store) : store :=
  results ++ [result].

(** [resultExists(studentId, questionId)]. *)
Definition resultExists (sid qid : jstr) (results : store) : bool :=
  existsb (fun r => jstr_eqb r.(studentId) sid && jstr_eqb r.(questionId) qid)
    results.

(** The records stored under a key. *)
Definition records_for (sid qid : jstr) (results : store) : list GradingResult :=
  filter (fun r => jstr_eqb r.(studentId) sid && jstr_eqb r.(questionId) qid)
    results.

End ResultStorage.

(** ** parseFileName / getSubmissionFiles (src/services/file-parser.ts) *)

Module FileParser.

Inductive AssignmentType := GROUP | SINGLE.

Fixpoint drop_slashes (l : jstr) : jstr :=
  match l with 47 :: t => drop_slashes t | _ => l end.

(** [path.basename(p)] (POSIX): trailing separators dropped, then the part
    after the last separator. *)
Definition basename (p : jstr) : jstr :=
  rev (fst (take_while (fun c => negb (c =? 47)) (drop_slashes (rev p)))).

(** Exactly [n] digits [\d{n}]. *)
Fixpoint digits_n (n : nat) (s : jstr) : option (jstr * jstr) :=
  match n, s with
  | O, _ => Some ([], s)
  | S n', c :: s' =>
      if is_digit c then
        match digits_n n' s' with
        | Some (d, r) => Some (c :: d, r)
        | None => None
        end
      else None
  | S _, [] => None
  end.

(** [(.+)$] without the [m] flag: a non-empty rest free of line terminators. *)
Definition rest_of_line (s : jstr) : option jstr :=
  match s with
  | [] => None
  | _ => if existsb is_line_terminator s then None else Some s
  end.

(** [/^(\d{7})(\d{6})_question_(\d{6})_(\d{7})_(.+)$/]: studentNumber,
    studentId, questionId, submissionId, originalFileName. *)
Definition group_regex (name : jstr) : option (jstr * jstr * jstr * jstr * jstr) :=
  match digits_n 7 name with
  | None => None
  | Some (sn, r1) =>
  match digits_n 6 r1 with
  | None => None
  | Some (sid, r2) =>
  match strip_prefix (js "_question_") r2 with
  | None => None
  | Some r3 =>
  match digits_n 6 r3 with
  | None => None
  | Some (qid, r4) =>
  match strip_prefix (js "_") r4 with
  | None => None
  | Some r5 =>
  match digits_n 7 r5 with
  | None => None
  | Some (subid, r6) =>
  match strip_prefix (js "_") r6 with
  | None => None
  | Some r7 =>
  match rest_of_line r7 with
  | None => None
  | Some fname => Some (sn, sid, qid, subid, fname)
  end end end end end end end end.

(** The part of the single pattern after [(?:LATE_)?]:
    [(\d{6})_(\d{7})_(.+)$]. *)
Definition single_tail (s : jstr) : option (jstr * jstr * jstr) :=
  match digits_n 6 s with
  | None => None
  | Some (sid, r1) =>
  match strip_prefix (js "_") r1 with
  | None => None
  | Some r2 =>
  match digits_n 7 r2 with
  | None => None
  | Some (subid, r3) =>
  match strip_prefix (js "_") r3 with
  | None => None
  | Some r4 =>
  match rest_of_line r4 with
  | None => None
  | Some fname => Some (sid, subid, fname)
  end end end end end.

(** [/^(\d{7})_(?:LATE_)?(\d{6})_(\d{7})_(.+)$/]: the greedy [?] tries the
    [LATE_] branch first and backtracks to the empty one. *)
Definition single_regex (name : jstr) : option (jstr * jstr * jstr * jstr) :=
  match digits_n 7 name with
  | None => None
  | Some (sn, r1) =>
  match strip_prefix (js "_") r1 with
  | None => None
  | Some r2 =>
      let with_late :=
        match strip_prefix (js "LATE_") r2 with
        | Some r3 => single_tail r3
        | None => None
        end in
      match with_late with
      | Some (sid, subid, fname) => Some (sn, sid, subid, fname)
      | None =>
          match single_tail r2 with
          | Some (sid, subid, fname) => Some (sn, sid, subid, fname)
          | None => None
          end
      end
  end end.

(** [parseFileName(filePath, assignmentType)]; [assignmentId] is
    [config.assignmentId]. *)
Definition parseFileName (assignmentId filePath : jstr) (t : AssignmentType)
  : option SubmissionInfo :=
  let fileName := basename filePath in
  match t with
  | GROUP =>
      match group_regex fileName with
      | Some (sn, sid, qid, subid, _) =>
          Some (mkSubmission sn sid qid subid [filePath])
      | None => None
      end
  | SINGLE =>
      match single_regex fileName with
      | Some (sn, sid, subid, _) =>
          Some (mkSubmission sn sid assignmentId subid [filePath])
      | None => None
      end
  end.

(** [path.join(directory, file)] for a directory entry name. *)
Definition path_join (dir file : jstr) : jstr := dir ++ [47] ++ file.

(** A directory entry: its name and whether [statSync(...).isFile()]. *)
Record entry : Type := mkEntry { entry_name : jstr; entry_isFile : bool }.

(** A JS [Map<string, SubmissionInfo>] as an association list in insertion
    order; [set] on an existing key keeps its position. *)
Definition map_t := list (jstr * SubmissionInfo).

Fixpoint map_get (k : jstr) (m : map_t) : option SubmissionInfo :=
  match m with
  | [] => None
  | (k', v) :: m' => if jstr_eqb k' k then Some v else map_get k m'
  end.

Fixpoint map_set (k : jstr) (v : SubmissionInfo) (m : map_t) : map_t :=
  match m with
  | [] => [(k, v)]
  | (k', v') :: m' => if jstr_eqb k' k then (k', v) :: m' else (k', v') :: map_set k v m'
  end.

(** Recording a parsed file in [stuIdSubFile]: a known studentId gets the
    new info with the old files plus the new path. *)
Definition add_info (m : map_t) (info : SubmissionInfo) : map_t :=
  match map_get info.(sub_studentId) m with
  | Some old =>
      let info' := mkSubmission info.(studentNumber) info.(sub_studentId)
                     info.(sub_questionId) info.(submissionId)
                     (old.(files) ++ firstn 1 info.(files)) in
      map_set info.(sub_studentId) info' m
  | None => map_set info.(sub_studentId) info m
  end.

(** One iteration of the [for (const file of files)] loop. *)
Definition step (assignmentId dir : jstr) (t : AssignmentType)
  (m : map_t) (e : entry) : map_t :=
  if e.(entry_isFile) then
    match parseFileName assignmentId (path_join dir e.(entry_name)) t with
    | None => m
    | Some info => add_info m info
    end
  else m.

(** [getSubmissionFiles(directory, assignmentType)]; [listing] is
    [fs.readdirSync(directory)] with the [isFile] flags, [None] when the
    directory does not exist. *)
Definition getSubmissionFiles (assignmentId dir : jstr)
  (listing : option (list entry)) (t : AssignmentType) : list SubmissionInfo :=
  match listing with
  | None => []
  | Some es => map snd (fold_left (step assignmentId dir t) es [])
  end.

End FileParser.

(** ** LLMService batch jobs (unnamed/part_004) *)

Module Batch.

(** The [status] field of an OpenAI batch object. *)
Inductive status :=
| validating | in_progress | finalizing | completed
| failed | cancelled | expired | cancelling.

Definition status_eqb (a b : status) : bool :=
  match a, b with
  | validating, validating | in_progress, in_progress
  | finalizing, finalizing | completed, completed
  | failed, failed | cancelled, cancelled
  | expired, expired | cancelling, cancelling => true
  | _, _ => false
  end.

(** The fields of a retrieved batch object that the code reads. *)
Record batch : Type := mkBatch {
  b_id : jstr;
  b_status : status;
  output_file_id : option jstr;
  error_file_id : option jstr;
  errors_object : option jstr   (* batchCompleted.errors?.object *)
}.

(** JavaScript truthiness of an optional string. *)
Definition truthy (o : option jstr) : bool :=
  match o with Some (_ :: _) => true | _ => false end.

Definition or_default (o : option jstr) (d : jstr) : jstr :=
  match o with Some ((_ :: _) as s) => s | _ => d end.

(** [getBatchResult(folderPath, batchId)]; [retrieved] is the outcome of
    [this.client.batches.retrieve(batchId)].  File downloads and writes are
    taken to succeed. *)
Definition getBatchResult (folderPath : jstr) (retrieved : Exc batch) : Exc jstr :=
  b <- retrieved;;
  if truthy b.(output_file_id) then
    Ret (folderPath ++ [47] ++ js "output_file.jsonl")
  else
    Throw (Error (js "Batch task execute failed, error reason: "
                  ++ or_default b.(errors_object) (js "No error details"))).

Section Polling.

(** [`${error}`]: the text of an exception raised by [batches.retrieve]. *)
Variable error_text : exn -> jstr.

(** The interval callback of [checkStatus]: [Some (Ret _)] resolves,
    [Some (Throw _)] rejects, [None] keeps polling. *)
Definition poll_tick (observed : Exc batch) : option (Exc jstr) :=
  match observed with
  | Throw e => Some (Throw (Error (js "Error checking batch status: " ++ error_text e)))
  | Ret b =>
      if status_eqb b.(b_status) completed then Some (Ret b.(b_id))
      else if existsb (status_eqb b.(b_status)) [failed; cancelled; expired]
      then Some (Ret b.(b_id))
      else None
  end.

(** The [checkStatus] promise: the observation of each minute in turn
    ([observe k] is the [k]-th retrieve), rejected by the 24-hour timeout
    when [ticks] polls settle nothing. *)
Fixpoint checkStatus (ticks : nat) (observe : nat -> Exc batch) (k : nat) : Exc jstr :=
  match ticks with
  | O => Throw (Error (js "Batch processing timeout after 24 hours"))
  | S t =>
      match poll_tick (observe k) with
      | Some r => r
      | None => checkStatus t observe (S k)
      end
  end.

(** [batchProcess(folderPath, waitForCompletion)]: [created] is the outcome
    of [createBatchTask], [observe] the successive polls and [final] the
    retrieve done by [getBatchResult]. *)
Definition batchProcess (folderPath : jstr) (waitForCompletion : bool)
  (created : Exc jstr) (ticks : nat) (observe : nat -> Exc batch)
  (final : Exc batch) : Exc jstr :=
  batchId <- created;;
  if negb waitForCompletion then Ret batchId
  else
    _ <- checkStatus ticks observe 0;;
    getBatchResult folderPath final.

End Polling.

End Batch.

(** ** AssignmentProcessor (src/assignment-processor.ts) *)

Module Engine.

(** The records of [results/grade-book-<assignmentId>.json] as the engine
    reads them ([GradingResultWithStu]). *)
Record GradeRecord : Type := mkGrade {
  g_studentId : jstr;
  g_questionId : jstr;
  g_grade : num;
  g_comment : jstr
}.

(** [StudentSubmissionStatus], written by the response listener. *)
Record StudentStatus : Type := mkStatus {
  st_studentId : jstr;
  hasSubmission : bool;
  hasGraded : bool
}.

(** [QuestionToReview] (the fields used here). *)
Record QuestionToReview : Type := mkQuestion {
  q_id : jstr;
  maxPoints : num
}.

(** The controls present on the grading surface. *)
Record surface : Type := mkSurface {
  has_score_field : jstr -> bool;   (* #question_score_<id>_visible *)
  has_grading_select : bool         (* #grading-box-extended *)
}.

(** Actions on the surface, in the order the engine performs them. *)
Inductive action : Type :=
| Goto (studentId : jstr)                   (* navigateToStudentSubmission *)
| Fill (selector text : jstr)               (* fill(selector, text) *)
| FillNum (selector : jstr) (value : num)   (* fill(selector, value.toString()) *)
| SelectOption (selector option : jstr)     (* selectOption(selector, option) *)
| SubmitFeedback (text : jstr)              (* submitFeedback(text) *)
| ReviewQuestions (studentId : jstr).       (* the multi-question branch *)

(** The Chinese texts of the source. *)
Definition txt_graded : jstr := [24050; 35780; 20998].          (* 已评分 *)
Definition txt_reviewed : jstr := [24050; 25209; 38405].        (* 已批阅 *)
Definition txt_not_submitted : jstr := [20316; 19994; 26410; 25552; 20132]. (* 作业未提交 *)
Definition ch_kou : N := 25187.   (* 扣 *)
Definition ch_fen : N := 20998.   (* 分 *)

(** [[，,。.；;！!、：:]] *)
Definition is_deduct_punct (c : N) : bool :=
  existsb (N.eqb c) [65292; 44; 12290; 46; 65307; 59; 65281; 33; 12289; 65306; 58].

(** [扣\s*[1-9]\s*分] at the start of [s]; the rest after the match. *)
Definition deduct_core (s : jstr) : option jstr :=
  match s with
  | k :: t =>
      if k =? ch_kou then
        match skip_js_space t with
        | d :: t2 =>
            if (49 <=? d) && (d <=? 57) then
              match skip_js_space t2 with
              | f :: rest => if f =? ch_fen then Some rest else None
              | [] => None
              end
            else None
        | [] => None
        end
      else None
  | [] => None
  end.

(** The pattern of the source at the start of [s]: an optional group of one
    mark of [，,。.；;！!、：:] and [\s*], then [扣\s*[1-9]\s*分]; the greedy
    optional group is tried first. *)
Definition deduct_at (s : jstr) : option jstr :=
  let with_group :=
    match s with
    | p :: t => if is_deduct_punct p then deduct_core (skip_js_space t) else None
    | [] => None
    end in
  match with_group with
  | Some r => Some r
  | None => deduct_core s
  end.

Fixpoint replace_deduct_fuel (fuel : nat) (s : jstr) : jstr :=
  match fuel with
  | O => s
  | S f =>
      match s with
      | [] => []
      | c :: t =>
          match deduct_at s with
          | Some rest => replace_deduct_fuel f rest
          | None => c :: replace_deduct_fuel f t
          end
      end
  end.

(** [comment.replace(pattern, '')] with the global flag; every
    match is non-empty, so [length s + 1] steps scan the whole string. *)
Definition replace_deduct (s : jstr) : jstr := replace_deduct_fuel (S (List.length s)) s.

(** [grade > 0]. *)
Definition num_gt0 (n : num) : bool :=
  match n with NFin q => negb (Qle_bool q 0) | NInf neg => negb neg | NNaN => false end.

(** [a === b] on numbers. *)
Definition num_eqb (a b : num) : bool :=
  match a, b with
  | NFin p, NFin q => Qeq_bool p q
  | NInf x, NInf y => Bool.eqb x y
  | _, _ => false
  end.

(** [!grade]: 0 and NaN are falsy. *)
Definition num_falsy (n : num) : bool :=
  match n with NFin q => Qeq_bool q 0 | NInf _ => false | NNaN => true end.

(** [setQuestionGrade(frame, questionId, grade)]. *)
Definition setQuestionGrade (surf : surface) (qid : jstr) (g : num) : list action :=
  if surf.(has_score_field) qid then
    [FillNum (js "#question_score_" ++ qid ++ js "_visible") g]
  else if surf.(has_grading_select) then
    [SelectOption (js "#grading-box-extended")
       (if num_gt0 g then js "complete" else js "incomplete")]
  else [].

(** [this.evaluatedGrades.find(...)] for a student and a question. *)
Definition find_grade (sid qid : jstr) (grades : list GradeRecord) : option GradeRecord :=
  find (fun r => jstr_eqb r.(g_studentId) sid && jstr_eqb r.(g_questionId) qid) grades.

(** The feedback text of the single-question branch (non-binary). *)
Definition single_feedback (r : GradeRecord) : jstr :=
  if num_eqb r.(g_grade) (NFin 10) then txt_graded else replace_deduct r.(g_comment).

(** The single-question branch of the per-student loop body. *)
Definition single_branch (binaryScore : bool) (surf : surface) (assignmentId : jstr)
  (grades : list GradeRecord) (sid : jstr) : list action :=
  match find_grade sid assignmentId grades with
  | None => []                               (* no previous result: skip *)
  | Some r =>
      if num_falsy r.(g_grade) then []       (* no grade found: skip *)
      else if binaryScore then
        setQuestionGrade surf assignmentId r.(g_grade) ++ [SubmitFeedback txt_graded]
      else
        [FillNum (js "#grading-box-extended") r.(g_grade);
         SubmitFeedback (single_feedback r)]
  end.

(** [this.studentSubmissionStatus.get(id)]: the map is written by
    [set] for each observed submission, so the last event wins. *)
Definition status_get (sid : jstr) (events : list StudentStatus) : option StudentStatus :=
  fold_left (fun acc st => if jstr_eqb st.(st_studentId) sid then Some st else acc)
    events None.

(** The body of the per-student loop of [processAssignment], all surface
    actions succeeding; [single] is [config.assignmentType === 'single']. *)
Definition processStudent (single binaryScore : bool) (surf : surface)
  (assignmentId : jstr) (events : list StudentStatus) (grades : list GradeRecord)
  (sid : jstr) : list action :=
  let mode_branch :=
    if single then single_branch binaryScore surf assignmentId grades sid
    else [ReviewQuestions sid] in
  Goto sid ::
  match status_get sid events with
  | Some st =>
      if negb st.(hasSubmission) then [SubmitFeedback txt_not_submitted]
      else if st.(hasGraded) then []
      else mode_branch
  | None => mode_branch
  end.

(** The student loop of [processAssignment], in roster order. *)
Definition processAssignment (single binaryScore : bool) (surf : surface)
  (assignmentId : jstr) (events : list StudentStatus) (grades : list GradeRecord)
  (roster : list jstr) : list action :=
  flat_map (processStudent single binaryScore surf assignmentId events grades) roster.

(** [gradeByPreviousGradingResults(question, student, frame)] of the
    multi-question branch; [setQuestionComment] fills
    [#question_comment_<id>]. *)
Definition gradeByPreviousGradingResults (surf : surface) (grades : list GradeRecord)
  (question : QuestionToReview) (sid : jstr) : list action :=
  match find_grade sid question.(q_id) grades with
  | None => []
  | Some r =>
      setQuestionGrade surf question.(q_id) r.(g_grade) ++
      [Fill (js "#question_comment_" ++ question.(q_id))
         (if num_eqb r.(g_grade) question.(maxPoints) then txt_reviewed
          else r.(g_comment))]
  end.

(** An action that writes a score. *)
Definition is_score_action (a : action) : bool :=
  match a with FillNum _ _ | SelectOption _ _ => true | _ => false end.

End Engine.

(** ** Supporting definitions: the sibling parser and the concrete inputs *)

(** [Math.min(Math.max(0, score), maxPoints)] of [parseGradingResponse] in
    [src/llm-api.ts], whose scores come from [\d+(\.\d+)?] and are never NaN. *)
Definition llm_api_validScore (score maxPoints : Q) : Q :=
  let lo := if Qlt_le_dec 0 score then score else 0%Q in
  if Qlt_le_dec maxPoints lo then maxPoints else lo.

(** A structured response whose grade exceeds the maximum. *)
Definition response_150 : jstr :=
  js "{" ++ dq ++ js "grade" ++ dq ++ js ": 150, " ++ dq ++ js "comment" ++ dq
  ++ js ": " ++ dq ++ js "ok" ++ dq ++ js "}".

(** A structured response with a negative grade. *)
Definition response_neg5 : jstr :=
  js "{" ++ dq ++ js "grade" ++ dq ++ js ": -5, " ++ dq ++ js "comment" ++ dq
  ++ js ": " ++ dq ++ js "ok" ++ dq ++ js "}".

(** The response of the spec's fallback example: grade: 7 comment: and the
    double-quoted word good. *)
Definition response_unquoted : jstr :=
  js "grade: 7 comment: " ++ dq ++ js "good" ++ dq.

(** The same fields in the textual form the fallback pattern expects. *)
Definition response_quoted : jstr :=
  dq ++ js "grade" ++ dq ++ js ": 7, " ++ dq ++ js "comment" ++ dq ++ js ": "
  ++ dq ++ js "good" ++ dq.

(** An answer that is neither JSON nor in the textual form. *)
Definition response_garbage : jstr := js "I cannot grade this".


(** A submission used by the concrete checks. *)
Definition sample_submission : SubmissionInfo :=
  mkSubmission (js "1234567") (js "123456") (js "82751") (js "0001234")
    [js "downloads/1234567_123456_0001234_main.py"].

(** Two results for the same key (student 123456, question 82751). *)
Definition result_first : GradingResult :=
  mkResult (js "123456") (js "82751") (JNum (NFin 6)) (js "first") (js "t1").
Definition result_second : GradingResult :=
  mkResult (js "123456") (js "82751") (JNum (NFin 9)) (js "second") (js "t2").

(** The spec's single-mode file name with the late flag. *)
Definition late_file_name : jstr := js "1234567_LATE_123456_0001234_file.py".

(** Two grouped-mode files of one student for two different questions. *)
Definition two_questions_listing : list FileParser.entry :=
  [FileParser.mkEntry (js "1234567123456_question_000001_0001234_a.py") true;
   FileParser.mkEntry (js "1234567123456_question_000002_0001235_b.py") true].

(** An expired batch whose record still names an output file. *)
Definition expired_batch : Batch.batch :=
  Batch.mkBatch (js "batch_1") Batch.expired (Some (js "file-out")) None None.

(** A feedback text with a deduction phrase: 不错，扣3分. *)
Definition comment_with_deduction : jstr := [19981; 38169; 65292; 25187; 51; 20998].

(** The files parsed from a listing, in listing order. *)
Definition parsed_files (assignmentId dir : jstr) (t : FileParser.AssignmentType)
  (es : list FileParser.entry) : list SubmissionInfo :=
  flat_map (fun e =>
    if FileParser.entry_isFile e then
      match FileParser.parseFileName assignmentId
              (FileParser.path_join dir (FileParser.entry_name e)) t with
      | Some i => [i]
      | None => []
      end
    else []) es.

(** The record the grouping is expected to hold for student [k]: the fields
    of the last file of [k], with the files of all of them in order. *)
Definition expected_group (k : jstr) (ps : list SubmissionInfo) : list SubmissionInfo :=
  match filter (fun i => jstr_eqb (sub_studentId i) k) ps with
  | [] => []
  | i :: l =>
      let lst := last (i :: l) i in
      [mkSubmission (studentNumber lst) k (sub_questionId lst) (submissionId lst)
         (flat_map files (i :: l))]
  end.

(** Keys are distinct and each value carries its key as studentId. *)
Definition keys_ok (m : FileParser.map_t) : Prop :=
  NoDup (map fst m) /\ Forall (fun kv => sub_studentId (snd kv) = fst kv) m.

(** A status the poll keeps waiting on. *)
Definition Batch_pending (s : Batch.status) : Prop :=
  In s [Batch.validating; Batch.in_progress; Batch.finalizing; Batch.cancelling].

(** ** parseGradingResponse / gradeSubmission (src/llm-api.ts) *)

Module LlmApi.

(** Matching under the [i] flag.  Canonicalize maps a code unit to its
    upper case, unless that maps a unit outside ASCII to one inside it; the
    patterns below are ASCII upper-case letters and colons, which only the
    unit itself and its ASCII lower-case letter canonicalize to. *)
Definition ascii_upper (c : N) : N := if (97 <=? c) && (c <=? 122) then c - 32 else c.

(** The case-insensitive pattern [p] at the start of [s]; the rest. *)
Fixpoint ci_strip (p s : jstr) : option jstr :=
  match p, s with
  | [], _ => Some s
  | x :: p', y :: s' => if ascii_upper y =? x then ci_strip p' s' else None
  | _ :: _, [] => None
  end.

(** [response.match(regex)] without the [g] flag: the matcher tried at each
    index in turn, the end of the input included. *)
Fixpoint search {A} (m : jstr -> option A) (s : jstr) : option A :=
  match m s with
  | Some a => Some a
  | None => match s with [] => None | _ :: t => search m t end
  end.

(** [SCORE:\s*(\d+(\.\d+)?)] at the start of [s]: capture 1.  The greedy
    [\s*] and [\d+] are followed by what they cannot match. *)
Definition score_at (s : jstr) : option jstr :=
  match ci_strip (js "SCORE:") s with
  | None => None
  | Some r =>
      match take_digits (skip_js_space r) with
      | ([], _) => None
      | (d, 46 :: t) =>
          match take_digits t with
          | ([], _) => Some d
          | (f, _) => Some (d ++ [46] ++ f)
          end
      | (d, _) => Some d
      end
  end.

(** [([\s\S]*?)(?=EXPLANATION:|$)]: the shortest prefix followed by
    [EXPLANATION:] in any case, or by the end of the input. *)
Fixpoint until_explanation (s : jstr) : jstr :=
  match ci_strip (js "EXPLANATION:") s with
  | Some _ => []
  | None => match s with [] => [] | c :: t => c :: until_explanation t end
  end.

(** [FEEDBACK:\s*([\s\S]*?)(?=EXPLANATION:|$)] at the start of [s]. *)
Definition feedback_at (s : jstr) : option jstr :=
  match ci_strip (js "FEEDBACK:") s with
  | Some r => Some (until_explanation (skip_js_space r))
  | None => None
  end.

(** [EXPLANATION:\s*([\s\S]*?)$] at the start of [s]: the lazy group has to
    reach the end of the input. *)
Definition explanation_at (s : jstr) : option jstr :=
  match ci_strip (js "EXPLANATION:") s with
  | Some r => Some (skip_js_space r)
  | None => None
  end.

(** [GradingResult] of [src/types.ts]. *)
Record GradingResult : Type := mkGradingResult {
  score : num;
  feedback : jstr;
  explanation : jstr
}.

(** [a < b] on numbers that are not NaN. *)
Definition num_lt (a b : num) : bool :=
  match a, b with
  | NNaN, _ | _, NNaN => false
  | NFin p, NFin q => negb (Qle_bool q p)
  | NInf true, NInf true => false
  | NInf true, _ => true
  | NInf false, _ => false
  | NFin _, NInf neg => negb neg
  end.

(** [Math.max(a, b)] and [Math.min(a, b)]. *)
Definition math_max (a b : num) : num :=
  if num_is_nan a || num_is_nan b then NNaN else if num_lt a b then b else a.

Definition math_min (a b : num) : num :=
  if num_is_nan a || num_is_nan b then NNaN else if num_lt b a then b else a.

(** [parseGradingResponse(response, maxPoints)]; nothing in its [try] block
    throws on a string, so its [catch] is unreachable. *)
Definition parseGradingResponse (response : jstr) (maxPoints : num) : GradingResult :=
  let score := match search score_at response with
               | Some d => parseFloat d
               | None => NFin 0
               end in
  let feedback := match search feedback_at response with
                  | Some f => trim f
                  | None => []
                  end in
  let explanation := match search explanation_at response with
                     | Some x => trim x
                     | None => []
                     end in
  mkGradingResult (math_min (math_max (NFin 0) score) maxPoints) feedback explanation.

(** [gradeSubmission(request)]: [completion] is the outcome of
    [openai.chat.completions.create] reduced to
    [completion.choices[0]?.message?.content] ([None] for undefined or
    null); [maxPoints] is [request.maxPoints]. *)
Definition gradeSubmission (completion : Exc (option jstr)) (maxPoints : num) : GradingResult :=
  try_catch
    (content <- completion;;
     let responseContent := match content with Some ((_ :: _) as s) => s | _ => [] end in
     Ret (parseGradingResponse responseContent maxPoints))
    (fun _ => mkGradingResult (NFin 0)
                (js "Error in grading process. Please review manually.")
                (js "LLM API error occurred")).

End LlmApi.

(** ** ContentExtractionService (src/services/content-extractor.ts) *)

Module ContentExtraction.

(** [path.extname(p)] of Node's POSIX path module: the scan from the end
    with its [startDot], [startPart], [end], [matchedSlash] and
    [preDotState]; [r] is the reversed prefix still to scan and [i] the
    index of its head. *)
Fixpoint extname_scan (r : jstr) (i startDot startPart end_ : Z) (matchedSlash : bool)
  (preDotState : Z) : Z * Z * Z * Z :=
  match r with
  | [] => (startDot, startPart, end_, preDotState)
  | c :: r' =>
      if c =? 47 then
        if negb matchedSlash then (startDot, (i + 1)%Z, end_, preDotState)
        else extname_scan r' (i - 1)%Z startDot startPart end_ matchedSlash preDotState
      else
        let '(end_, matchedSlash) :=
          if (end_ =? -1)%Z then ((i + 1)%Z, false) else (end_, matchedSlash) in
        if c =? 46 then
          if (startDot =? -1)%Z
          then extname_scan r' (i - 1)%Z i startPart end_ matchedSlash preDotState
          else extname_scan r' (i - 1)%Z startDot startPart end_ matchedSlash
                 (if (preDotState =? 1)%Z then preDotState else 1%Z)
        else extname_scan r' (i - 1)%Z startDot startPart end_ matchedSlash
               (if (startDot =? -1)%Z then preDotState else (-1)%Z)
  end.

Definition extname (p : jstr) : jstr :=
  let '(startDot, startPart, end_, preDotState) :=
    extname_scan (rev p) (Z.of_nat (List.length p) - 1)%Z (-1)%Z 0%Z (-1)%Z true 0%Z in
  if (startDot =? -1)%Z || (end_ =? -1)%Z || (preDotState =? 0)%Z ||
     ((preDotState =? 1)%Z && (startDot =? end_ - 1)%Z && (startDot =? startPart + 1)%Z)
  then []
  else firstn (Z.to_nat (end_ - startDot)) (skipn (Z.to_nat startDot) p).

(** The registered extractors, in registration order. *)
Inductive extractor :=
| TextExtractor | ExcelExtractor | PDFExtractor | DocxExtractor | ZipExtractor
| DefaultExtractor.

Definition extractors : list extractor :=
  [TextExtractor; ExcelExtractor; PDFExtractor; DocxExtractor; ZipExtractor;
   DefaultExtractor].

Definition text_exts : list jstr :=
  map js [".txt"; ".js"; ".py"; ".java"; ".c"; ".cpp"; ".cs"; ".html"; ".css";
          ".json"; ".ts"]%string.

Definition excel_exts : list jstr := map js [".xlsx"; ".xls"]%string.

Definition zip_exts : list jstr := map js [".zip"; ".rar"; ".7z"]%string.

Section Extract.

(** [String.prototype.toLowerCase]. *)
Variable to_lower : jstr -> jstr.
(** [fs.existsSync] on a path. *)
Variable file_exists : jstr -> bool.
(** [fs.promises.readFile(p, 'utf-8')]. *)
Variable read_text : jstr -> Exc jstr.
(** [ExcelExtractor.extractContent] and [ZipExtractor.extractContent]. *)
Variable excel_content : jstr -> Exc jstr.
Variable zip_content : jstr -> Exc jstr.
(** The message of an exception raised by the engine or by Node. *)
Variable native_message : exn -> jstr.

(** [canHandle(filePath)] of each extractor. *)
Definition canHandle (x : extractor) (p : jstr) : bool :=
  let ext := to_lower (extname p) in
  match x with
  | TextExtractor => existsb (jstr_eqb ext) text_exts
  | ExcelExtractor => existsb (jstr_eqb ext) excel_exts
  | PDFExtractor => jstr_eqb ext (js ".pdf")
  | DocxExtractor => jstr_eqb ext (js ".docx")
  | ZipExtractor => existsb (jstr_eqb ext) zip_exts
  | DefaultExtractor => true
  end.

(** [extractContent(filePath)] of each extractor. *)
Definition run_extractor (x : extractor) (p : jstr) : Exc jstr :=
  match x with
  | TextExtractor => read_text p
  | ExcelExtractor => excel_content p
  | PDFExtractor => Ret (js "[PDF file: " ++ FileParser.basename p ++ js "]")
  | DocxExtractor => Ret (js "[DOCX file: " ++ FileParser.basename p ++ js "]")
  | ZipExtractor => zip_content p
  | DefaultExtractor => Ret (js "[Unsupported file: " ++ FileParser.basename p ++ js "]")
  end.

(** The [try] block of [ContentExtractionService.extractContent];
    [filePath] is [None] for [undefined], for which [fs.existsSync] is
    false and the template literal writes [undefined]. *)
Definition extract_try (filePath : option jstr) : Exc jstr :=
  match filePath with
  | None => Throw (Error (js "File does not exist: " ++ js "undefined"))
  | Some p =>
      if negb (file_exists p) then Throw (Error (js "File does not exist: " ++ p))
      else
        match find (fun x => canHandle x p) extractors with
        | Some x => run_extractor x p
        | None => Throw (Error (js "No suitable extractor found for " ++ p))
        end
  end.

Definition extractContent (filePath : option jstr) : jstr :=
  try_catch (extract_try filePath)
    (fun e => js "Error extracting content: " ++ error_message native_message e).

End Extract.

End ContentExtraction.

(** ** The grading run of [main] (unnamed/part_009) *)

Module MainFlow.

(** [for (let i = 0; i < n; i += batchSize) batches.push(slice(i, i + batchSize))]
    with [batchSize = 10]; [fuel] bounds the iterations. *)
Fixpoint batches_from {A} (fuel i : nat) (l : list A) : list (list A) :=
  match fuel with
  | O => []
  | S f =>
      if (i <? List.length l)%nat
      then firstn 10 (skipn i l) :: batches_from f (i + 10)%nat l
      else []
  end.

Definition make_batches {A} (l : list A) : list (list A) :=
  batches_from (List.length l) 0 l.

Section Run.

Variable num_to_string : Q -> jstr.
Variable native_message : exn -> jstr.
Variable now : jstr.
Variables (to_lower : jstr -> jstr) (file_exists : jstr -> bool)
  (read_text excel_content zip_content : jstr -> Exc jstr).
(** [questions.has(questionId)] on the map of [loadQuestions]. *)
Variable has_question : jstr -> bool.
(** The outcome of [this.llm.getResponse(prompt)] for the prompt built from
    a submission's question and extracted content. *)
Variable llm : SubmissionInfo -> jstr -> Exc jstr.

(** [processSubmission(submission, question)]: [None] is [{ error: true }].
    The records of [getSubmissionFiles] carry [files] and no [filePath], so
    the path handed to the extractor is [undefined]. *)
Definition processSubmission (submission : SubmissionInfo) : option GradingResult :=
  try_catch
    (content <- Ret (ContentExtraction.extractContent to_lower file_exists read_text
                       excel_content zip_content native_message None);;
     Ret (Some (gradeSubmission num_to_string native_message now submission
                  (llm submission content))))
    (fun _ => None).

(** The store, [processedCount] and [errorCount]. *)
Definition run_state : Type := ResultStorage.store * nat * nat.

(** The [for (const result of results)] loop of a batch. *)
Definition record_result (acc : run_state) (result : option GradingResult) : run_state :=
  let '(st, processed, errors) := acc in
  match result with
  | Some r => (ResultStorage.addResult r st, S processed, errors)
  | None => (st, processed, S errors)
  end.

(** One batch: [Promise.all(batch.map(...))], then the results in order;
    [saveResults] writes the store without changing it. *)
Definition run_batch (acc : run_state) (batch : list SubmissionInfo) : run_state :=
  fold_left record_result (map processSubmission batch) acc.

(** The filter of [main], against the store loaded at start. *)
Definition to_grade (store0 : ResultStorage.store) (submissions : list SubmissionInfo)
  : list SubmissionInfo :=
  filter (fun s => has_question (sub_questionId s) &&
                   negb (ResultStorage.resultExists (sub_studentId s) (sub_questionId s) store0))
    submissions.

(** The grading run of [main] from the loaded store [store0]. *)
Definition main_run (store0 : ResultStorage.store) (submissions : list SubmissionInfo)
  : run_state :=
  fold_left run_batch (make_batches (to_grade store0 submissions)) (store0, O, O).

End Run.

End MainFlow.

(** [a] is obtained from [b] by deleting code units. *)
Inductive subseq : jstr -> jstr -> Prop :=
| subseq_nil : subseq [] []
| subseq_keep c a b : subseq a b -> subseq (c :: a) (c :: b)
| subseq_drop c a b : subseq a b -> subseq a (c :: b).

(** The key of a stored result. *)
Definition result_key (r : GradingResult) : jstr * jstr := (studentId r, questionId r).

(** The text handed to the grader by [main] for every submission. *)
Definition content_undefined : jstr :=
  js "Error extracting content: File does not exist: undefined".

(** ** loadQuestions (src/services/file-parser.ts) *)

Module LoadQuestions.

(** [Question] of [src/types.ts]; [maxPoint] is [undefined] when [None]. *)
Record Question : Type := mkQuestion {
  questionId : jstr;
  description : jstr;
  rubric : jstr;
  maxPoint : option num
}.

(** The loop of Node's POSIX [path.basename(path, suffix)] for a non-empty
    [suffix] no longer than [path]: [r] is the reversed prefix still to
    scan, [i] the index of its head; the result is [start], [end] and
    [firstNonSlashEnd]. *)
Fixpoint basename_sfx_scan (r : jstr) (i : Z) (suffix : jstr)
  (start end_ extIdx firstNonSlashEnd : Z) (matchedSlash : bool) : Z * Z * Z :=
  match r with
  | [] => (start, end_, firstNonSlashEnd)
  | c :: r' =>
      if c =? 47 then
        if negb matchedSlash then ((i + 1)%Z, end_, firstNonSlashEnd)
        else basename_sfx_scan r' (i - 1)%Z suffix start end_ extIdx firstNonSlashEnd
               matchedSlash
      else
        let '(matchedSlash, firstNonSlashEnd) :=
          if (firstNonSlashEnd =? -1)%Z then (false, (i + 1)%Z)
          else (matchedSlash, firstNonSlashEnd) in
        if (0 <=? extIdx)%Z then
          if c =? nth (Z.to_nat extIdx) suffix 0 then
            let extIdx := (extIdx - 1)%Z in
            basename_sfx_scan r' (i - 1)%Z suffix start
              (if (extIdx =? -1)%Z then i else end_) extIdx firstNonSlashEnd matchedSlash
          else
            basename_sfx_scan r' (i - 1)%Z suffix start firstNonSlashEnd (-1)%Z
              firstNonSlashEnd matchedSlash
        else
          basename_sfx_scan r' (i - 1)%Z suffix start end_ extIdx firstNonSlashEnd
            matchedSlash
  end.

(** [path.basename(path, suffix)]; an empty suffix, or one longer than the
    path, gives the plain basename. *)
Definition basename_ext (p suffix : jstr) : jstr :=
  if (0 <? List.length suffix)%nat && (List.length suffix <=? List.length p)%nat then
    if jstr_eqb suffix p then []
    else
      let '(start, end_, fnse) :=
        basename_sfx_scan (rev p) (Z.of_nat (List.length p) - 1)%Z suffix 0%Z (-1)%Z
          (Z.of_nat (List.length suffix) - 1)%Z (-1)%Z true in
      let end_ := if (start =? end_)%Z then fnse
                  else if (end_ =? -1)%Z then Z.of_nat (List.length p) else end_ in
      firstn (Z.to_nat (end_ - start)) (skipn (Z.to_nat start) p)
  else FileParser.basename p.

(** [const questionId = path.basename(file, path.extname(file))]. *)
Definition file_question_id (file : jstr) : jstr :=
  basename_ext file (ContentExtraction.extname file).

(** The lazy [([\s\S]*?)(?=<marker>|$)]: the code units before the first
    occurrence of [marker], or all of them. *)
Fixpoint until_marker (marker s : jstr) : jstr :=
  match strip_prefix marker s with
  | Some _ => []
  | None => match s with [] => [] | c :: t => c :: until_marker marker t end
  end.

(** [#Question\s*([\s\S]*?)(?=#Rubric|$)] at the start of [s]: capture 1. *)
Definition question_at (s : jstr) : option jstr :=
  match strip_prefix (js "#Question") s with
  | Some r => Some (until_marker (js "#Rubric") (skip_js_space r))
  | None => None
  end.

(** [#Rubric\s*([\s\S]*?)(?=#MaxPoint|$)] at the start of [s]: capture 1. *)
Definition rubric_at (s : jstr) : option jstr :=
  match strip_prefix (js "#Rubric") s with
  | Some r => Some (until_marker (js "#MaxPoint") (skip_js_space r))
  | None => None
  end.

(** [#MaxPoint\s*(\d+)] at the start of [s]: capture 1. *)
Definition maxpoint_at (s : jstr) : option jstr :=
  match strip_prefix (js "#MaxPoint") s with
  | Some r =>
      match take_digits (skip_js_space r) with
      | ([], _) => None
      | (d, _) => Some d
      end
  | None => None
  end.

(** The fields read from a rubric file's content; [parseInt] of a digit
    string is its [parseFloat]. *)
Definition parse_rubric (content : jstr) : jstr * jstr * option num :=
  let description :=
    match LlmApi.search question_at content with Some m => trim m | None => [] end in
  let rubric :=
    match LlmApi.search rubric_at content with Some m => trim m | None => trim content end in
  let maxPoint :=
    match LlmApi.search maxpoint_at content with Some d => Some (parseFloat d) | None => None end in
  (description, rubric, maxPoint).

(** [Map<string, Question>] as an association list in insertion order. *)
Definition qmap := list (jstr * Question).

Fixpoint qget (k : jstr) (m : qmap) : option Question :=
  match m with
  | [] => None
  | (k', v) :: m' => if jstr_eqb k' k then Some v else qget k m'
  end.

Fixpoint qset (k : jstr) (v : Question) (m : qmap) : qmap :=
  match m with
  | [] => [(k, v)]
  | (k', v') :: m' => if jstr_eqb k' k then (k', v) :: m' else (k', v') :: qset k v m'
  end.

(** One iteration of the [for (const file of files)] loop: a file that
    cannot be read is logged and skipped. *)
Definition load_step (read : jstr -> Exc jstr) (dir : jstr) (m : qmap) (file : jstr) : qmap :=
  let questionId := file_question_id file in
  match read (FileParser.path_join dir file) with
  | Ret content =>
      let '(description, rubric, maxPoint) := parse_rubric content in
      qset questionId (mkQuestion questionId description rubric maxPoint) m
  | Throw _ => m
  end.

(** [loadQuestions(rubricsDir)]: [dir_exists] is [fs.existsSync], [listing]
    the names of [fs.readdirSync] ([None] when it throws, caught by the
    outer [catch] with the map still empty), [read] [fs.readFileSync]. *)
Definition loadQuestions (dir_exists : bool) (listing : option (list jstr))
  (read : jstr -> Exc jstr) (dir : jstr) : qmap :=
  if negb dir_exists then []
  else match listing with
       | None => []
       | Some files => fold_left (load_step read dir) files []
       end.

End LoadQuestions.

(** ** Inputs built from their parts *)

Definition single_name (late : bool) (sn sid sub fname : jstr) : jstr :=
  sn ++ js "_" ++ (if late then js "LATE_" else []) ++ sid ++ js "_" ++ sub ++ js "_" ++ fname.

Definition group_name (sn sid qid sub fname : jstr) : jstr :=
  sn ++ sid ++ js "_question_" ++ qid ++ js "_" ++ sub ++ js "_" ++ fname.

Definition text_form (g c : jstr) (post : jstr) : jstr :=
  dq ++ js "grade" ++ dq ++ js ":" ++ js " " ++ g ++ js ", " ++ dq ++ js "comment" ++ dq
  ++ js ":" ++ js " " ++ dq ++ c ++ dq ++ post.

Definition format_response (d f x : jstr) : jstr :=
  js "SCORE: " ++ d ++ [10] ++ js "FEEDBACK: " ++ f ++ [10] ++ js "EXPLANATION: " ++ x.

Definition rubric_file (d r n : jstr) : jstr :=
  js "#Question " ++ d ++ [10] ++ js "#Rubric " ++ r ++ [10] ++ js "#MaxPoint " ++ n.

Definition extract_outcome (native_message : exn -> jstr) (r : Exc jstr) : jstr :=
  match r with
  | Ret s => s
  | Throw e => js "Error extracting content: " ++ error_message native_message e
  end.

(** ** The claims as stated *)

(** C1 as stated: two adds with the same key leave only the later record. *)
Definition C1_claim : Prop :=
  forall (st : ResultStorage.store) (r1 r2 : GradingResult),
    studentId r1 = studentId r2 -> questionId r1 = questionId r2 ->
    ResultStorage.records_for (studentId r2) (questionId r2)
      (ResultStorage.addResult r2 (ResultStorage.addResult r1 st)) = [r2].

(** C3 as stated: the unquoted answer yields score 7 and feedback good. *)
Definition C3_claim : Prop :=
  forall num_to_string native_message now sid qid,
    grade (parseResponse num_to_string native_message now response_unquoted sid qid)
      = JNum (NFin 7) /\
    comment (parseResponse num_to_string native_message now response_unquoted sid qid)
      = js "good".

(** C4 as stated (its last part): two parsed files of one student with
    different questionIds never end up in one record. *)
Definition C4_claim : Prop :=
  forall assignmentId dir es t i1 i2,
    In i1 (parsed_files assignmentId dir t es) ->
    In i2 (parsed_files assignmentId dir t es) ->
    sub_studentId i1 = sub_studentId i2 ->
    sub_questionId i1 <> sub_questionId i2 ->
    ~ exists r, In r (FileParser.getSubmissionFiles assignmentId dir (Some es) t) /\
                incl (files i1 ++ files i2) (files r).

(** C5 as stated, for both oracle clients: on a transport failure, and on
    a completion that cannot be parsed (for [src/llm-api.ts], one with no
    [SCORE:] field), the result has score 0 and a feedback describing the
    error, so at least a non-empty one. *)
Definition C5_claim : Prop :=
  (forall num_to_string native_message now submission (e : exn),
     grade (gradeSubmission num_to_string native_message now submission (Throw e))
       = JNum (NFin 0) /\
     comment (gradeSubmission num_to_string native_message now submission (Throw e)) <> []) /\
  (forall (maxPoints : Q) (e : exn), (0 <= maxPoints)%Q ->
     LlmApi.score (LlmApi.gradeSubmission (Throw e) (NFin maxPoints)) = NFin 0 /\
     LlmApi.feedback (LlmApi.gradeSubmission (Throw e) (NFin maxPoints)) <> []) /\
  (forall (maxPoints : Q) (response : jstr), (0 <= maxPoints)%Q ->
     LlmApi.search LlmApi.score_at response = None ->
     LlmApi.score (LlmApi.gradeSubmission (Ret (Some response)) (NFin maxPoints)) = NFin 0 /\
     LlmApi.feedback (LlmApi.gradeSubmission (Ret (Some response)) (NFin maxPoints)) <> []).


(** C8 as stated: acknowledgment exactly for a full mark, the raw feedback
    (no phrase removed) otherwise. *)
Definition C8_claim : Prop :=
  forall surf assignmentId sid (maxPoint : num) (r : Engine.GradeRecord),
    Engine.g_studentId r = sid -> Engine.g_questionId r = assignmentId ->
    Engine.num_falsy (Engine.g_grade r) = false ->
    let tr := Engine.processStudent true false surf assignmentId [] [r] sid in
    (Engine.num_eqb (Engine.g_grade r) maxPoint = true ->
       In (Engine.SubmitFeedback Engine.txt_graded) tr) /\
    (Engine.num_eqb (Engine.g_grade r) maxPoint = false ->
       In (Engine.SubmitFeedback (Engine.g_comment r)) tr).

(** ** Tactics *)

(** Case analysis on every [Exc] and [option] scrutinee of the goal. *)
Ltac split_exc :=
  repeat match goal with
  | |- context [match ?m with Ret _ => _ | Throw _ => _ end] => destruct m
  | |- context [match ?o with Some _ => _ | None => _ end] => destruct o
  end.

(** Closes a goal [Throw _ = Ret _ -> _]. *)
Ltac no_throw := let H := fresh in intros H; simpl in H; discriminate H.

(** ** Theorems *)

Lemma jstr_eqb_eq a b : jstr_eqb a b = true <-> a = b.
Proof.
  revert b; induction a as [|x a IH]; intros [|y b]; simpl;
    try (split; congruence).
  rewrite andb_true_iff, N.eqb_eq, IH. split; [intros [-> ->]; reflexivity|].
  intros H; injection H; auto.
Qed.

Lemma jstr_eqb_refl a : jstr_eqb a a = true.
Proof. apply jstr_eqb_eq; reflexivity. Qed.

(** [Math.min(Math.max(0, 0), maxPoints)] is 0 for maxPoints >= 0. *)
Lemma llm_clamp_zero (m : Q) :
  (0 <= m)%Q -> LlmApi.math_min (LlmApi.math_max (NFin 0) (NFin 0)) (NFin m) = NFin 0.
Proof.
  intros Hm. unfold LlmApi.math_min, LlmApi.math_max. cbn.
  apply Qle_bool_iff in Hm. rewrite Hm. reflexivity.
Qed.

Lemma llm_parse_empty (m : Q) :
  (0 <= m)%Q -> LlmApi.parseGradingResponse [] (NFin m) = LlmApi.mkGradingResult (NFin 0) [] [].
Proof.
  intros Hm.
  assert (E1 : LlmApi.search LlmApi.score_at [] = None) by reflexivity.
  assert (E2 : LlmApi.search LlmApi.feedback_at [] = None) by reflexivity.
  assert (E3 : LlmApi.search LlmApi.explanation_at [] = None) by reflexivity.
  unfold LlmApi.parseGradingResponse. cbv zeta. rewrite E1, E2, E3, (llm_clamp_zero m Hm).
  reflexivity.
Qed.

Section GraderTheorems.

Variable num_to_string : Q -> jstr.
Variable native_message : exn -> jstr.
Variable now : jstr.

Lemma parse_try_key response sid qid r :
  parse_try num_to_string now response sid qid = Ret r ->
  studentId r = sid /\ questionId r = qid.
Proof.
  unfold parse_try, bind; cbv beta.
  split_exc; intros H; try discriminate; injection H as <-; simpl; auto.
Qed.

Lemma parseResponse_key response sid qid :
  studentId (parseResponse num_to_string native_message now response sid qid) = sid /\
  questionId (parseResponse num_to_string native_message now response sid qid) = qid.
Proof.
  unfold parseResponse, try_catch.
  destruct (parse_try num_to_string now response sid qid) eqn:E.
  - exact (parse_try_key _ _ _ _ E).
  - unfold parse_catch; destruct (grade_regex_search response) as [[g c]|];
      simpl; auto.
Qed.

(** C10: on every path of [GradingService.gradeSubmission] (graded,
    transport failure, empty answer, each fallback of [parseResponse]) the
    result carries the submission's studentId and questionId. *)
Theorem gradeSubmission_keeps_key (submission : SubmissionInfo) (llm : Exc jstr) :
  studentId (gradeSubmission num_to_string native_message now submission llm)
    = sub_studentId submission /\
  questionId (gradeSubmission num_to_string native_message now submission llm)
    = sub_questionId submission.
Proof.
  unfold gradeSubmission, try_catch, grade_try, bind.
  destruct llm as [response|e]; [|simpl; auto].
  destruct response as [|c t]; [simpl; auto|].
  destruct (js_ToString num_to_string _); [apply parseResponse_key | simpl; auto].
Qed.

(** C5 (amended): neither oracle client raises to its caller.
    [GradingService.gradeSubmission] returns a GradingResult on every input
    (its [catch] covers the whole body and cannot throw): on a transport
    failure of the oracle call, on an empty answer, and on an answer that
    neither parses as the expected JSON nor matches the textual pattern, that
    result has score 0 and feedback naming the error.  The [gradeSubmission]
    of [src/llm-api.ts] returns a fixed error result with score 0 on a
    transport failure; a completion without a [SCORE:] field gets score 0
    (for maxPoints >= 0), one without [FEEDBACK:] an empty feedback and one
    without [EXPLANATION:] an empty explanation, and an undefined or empty
    completion gets score 0 with both texts empty: no text describes the
    failed parse. *)
Theorem gradeSubmission_degraded (submission : SubmissionInfo) :
  (forall e : exn,
     gradeSubmission num_to_string native_message now submission (Throw e) =
     result_of now (sub_studentId submission) (sub_questionId submission)
       (JNum (NFin 0))
       (js "> Error grading submission: " ++ error_message native_message e)) /\
  gradeSubmission num_to_string native_message now submission (Ret []) =
  result_of now (sub_studentId submission) (sub_questionId submission)
    (JNum (NFin 0))
    (js "> Error grading submission: " ++ js "Empty response from LLM") /\
  (forall (response : jstr) (e : exn),
     response <> [] ->
     parse_try num_to_string now response (sub_studentId submission)
       (sub_questionId submission) = Throw e ->
     grade_regex_search response = None ->
     gradeSubmission num_to_string native_message now submission (Ret response) =
     result_of now (sub_studentId submission) (sub_questionId submission)
       (JNum (NFin 0))
       (js "> Error parsing grading response: " ++ error_message native_message e)) /\
  (forall (e : exn) (maxPoints : num),
     LlmApi.gradeSubmission (Throw e) maxPoints =
     LlmApi.mkGradingResult (NFin 0)
       (js "Error in grading process. Please review manually.")
       (js "LLM API error occurred")) /\
  (forall (maxPoints : Q) (response : jstr), (0 <= maxPoints)%Q ->
     (LlmApi.search LlmApi.score_at response = None ->
        LlmApi.score (LlmApi.gradeSubmission (Ret (Some response)) (NFin maxPoints)) = NFin 0) /\
     (LlmApi.search LlmApi.feedback_at response = None ->
        LlmApi.feedback (LlmApi.gradeSubmission (Ret (Some response)) (NFin maxPoints)) = []) /\
     (LlmApi.search LlmApi.explanation_at response = None ->
        LlmApi.explanation (LlmApi.gradeSubmission (Ret (Some response)) (NFin maxPoints)) = [])) /\
  (forall maxPoints : Q, (0 <= maxPoints)%Q ->
     LlmApi.gradeSubmission (Ret None) (NFin maxPoints) = LlmApi.mkGradingResult (NFin 0) [] [] /\
     LlmApi.gradeSubmission (Ret (Some [])) (NFin maxPoints) = LlmApi.mkGradingResult (NFin 0) [] []).
Proof.
  split; [intros e; reflexivity|].
  split; [reflexivity|].
  split.
  { intros response e Hne Hparse Hregex.
    unfold gradeSubmission, try_catch, grade_try, bind.
    destruct response as [|c t]; [contradiction|].
    unfold parseResponse, try_catch. rewrite Hparse.
    unfold parse_catch. rewrite Hregex. reflexivity. }
  split; [intros e m; reflexivity|].
  split.
  { intros m response Hm. destruct response as [|c t].
    - unfold LlmApi.gradeSubmission, try_catch, bind. cbv beta iota.
      rewrite (llm_parse_empty m Hm). repeat split; reflexivity.
    - unfold LlmApi.gradeSubmission, try_catch, bind. cbv beta iota.
      unfold LlmApi.parseGradingResponse. cbv zeta.
      cbn [LlmApi.score LlmApi.feedback LlmApi.explanation].
      repeat split; intros H; rewrite H; [apply llm_clamp_zero, Hm|reflexivity|reflexivity]. }
  intros m Hm. unfold LlmApi.gradeSubmission, try_catch, bind. cbv beta iota.
  rewrite (llm_parse_empty m Hm). split; reflexivity.
Qed.

(** C2 (code evaluated at the failing input): [parseResponse] stores the
    grade of a structured answer as it is, 150 or -5, with no clamping to
    [0, maxPoints]. *)
Theorem parseResponse_no_clamp sid qid :
  grade (parseResponse num_to_string native_message now response_150 sid qid) = JNum (NFin 150) /\
  grade (parseResponse num_to_string native_message now response_neg5 sid qid) = JNum (NFin (-5)).
Proof. split; reflexivity. Qed.

(** C3 (amended): the answer [grade: 7 comment: "good"] is not JSON and does
    not match the fallback pattern, whose keys are double-quoted and
    separated by a comma; [parseResponse] returns the parse-failure result
    with score 0.  The same fields written as the pattern expects are
    extracted as score 7 and feedback good. *)
Theorem parseResponse_unquoted_degrades sid qid :
  parseResponse num_to_string native_message now response_unquoted sid qid =
  result_of now sid qid (JNum (NFin 0))
    (js "> Error parsing grading response: " ++ native_message SyntaxError) /\
  parseResponse num_to_string native_message now response_quoted sid qid =
  result_of now sid qid (JNum (NFin 7)) (js "good").
Proof. split; reflexivity. Qed.

End GraderTheorems.

(** The clamp of the sibling parser in [src/llm-api.ts] keeps its score in
    [0, maxPoints]. *)
Lemma llm_api_validScore_bounds (score maxPoints : Q) :
  (0 < maxPoints)%Q ->
  (0 <= llm_api_validScore score maxPoints /\ llm_api_validScore score maxPoints <= maxPoints)%Q.
Proof.
  intros Hm. unfold llm_api_validScore.
  destruct (Qlt_le_dec 0 score) as [Hs|Hs];
    destruct (Qlt_le_dec maxPoints _) as [Hl|Hl]; split; lra.
Qed.

(** C5 witness: a non-JSON answer outside the textual form degrades, and
    the llm-api client gives score 0 and empty texts to a completion with
    none of its three fields. *)
Lemma gradeSubmission_degraded_witness :
  response_garbage <> [] /\
  parse_try (fun _ => []) (js "now") response_garbage (js "123456") (js "82751")
    = Throw SyntaxError /\
  grade_regex_search response_garbage = None /\
  gradeSubmission (fun _ => []) (fun _ => js "Unexpected token") (js "now")
    sample_submission (Ret response_garbage) =
  result_of (js "now") (js "123456") (js "82751") (JNum (NFin 0))
    (js "> Error parsing grading response: " ++ js "Unexpected token") /\
  LlmApi.search LlmApi.score_at (js "hello") = None /\
  LlmApi.search LlmApi.feedback_at (js "hello") = None /\
  LlmApi.score (LlmApi.gradeSubmission (Ret (Some (js "hello"))) (NFin 10)) = NFin 0 /\
  LlmApi.feedback (LlmApi.gradeSubmission (Ret (Some (js "hello"))) (NFin 10)) = [].
Proof.
  destruct (gradeSubmission_degraded (fun _ => []) (fun _ => js "Unexpected token")
              (js "now") sample_submission) as [_ [_ [H3 [_ [H5 _]]]]].
  destruct (H5 10%Q (js "hello") ltac:(unfold Qle; simpl; lia)) as [Hs [Hf _]].
  split; [discriminate|]. split; [reflexivity|]. split; [reflexivity|].
  split; [exact (H3 response_garbage SyntaxError ltac:(discriminate) eq_refl eq_refl)|].
  split; [vm_compute; reflexivity|]. split; [vm_compute; reflexivity|].
  split; [exact (Hs ltac:(vm_compute; reflexivity))|].
  exact (Hf ltac:(vm_compute; reflexivity)).
Defined.

(** C5 counterexample: the completion [hello] of the llm-api client has no
    [SCORE:] field, and its result has an empty feedback. *)
Lemma llm_gradeSubmission_unparsable_counterexample : ~ C5_claim.
Proof.
  unfold C5_claim. intros [_ [_ H]].
  destruct (H 10%Q (js "hello") ltac:(unfold Qle; simpl; lia) ltac:(vm_compute; reflexivity))
    as [_ Hf].
  apply Hf. vm_compute. reflexivity.
Qed.

(** C3 counterexample: the unquoted answer does not give score 7. *)
Lemma parseResponse_unquoted_counterexample : ~ C3_claim.
Proof.
  unfold C3_claim. intros H.
  destruct (H (fun _ => []) (fun _ => []) [] [] []) as [Hg _].
  vm_compute in Hg. discriminate Hg.
Qed.

(** *** ResultStorage *)

(** C1 (amended): [addResult] appends.  After adding two results with the
    same key, the store holds both under that key, the earlier first, after
    those already there, and [resultExists] reports the key. *)
Theorem addResult_appends (st : ResultStorage.store) (r1 r2 : GradingResult) :
  studentId r1 = studentId r2 -> questionId r1 = questionId r2 ->
  ResultStorage.records_for (studentId r2) (questionId r2)
    (ResultStorage.addResult r2 (ResultStorage.addResult r1 st))
  = ResultStorage.records_for (studentId r2) (questionId r2) st ++ [r1; r2] /\
  ResultStorage.resultExists (studentId r2) (questionId r2)
    (ResultStorage.addResult r2 (ResultStorage.addResult r1 st)) = true.
Proof.
  intros Hs Hq. unfold ResultStorage.records_for, ResultStorage.resultExists,
    ResultStorage.addResult.
  rewrite !filter_app, !existsb_app. simpl.
  rewrite Hs, Hq, !jstr_eqb_refl. simpl.
  split; [rewrite <- app_assoc; reflexivity|].
  rewrite !orb_true_r. reflexivity.
Qed.

Lemma addResult_appends_witness :
  studentId result_first = studentId result_second /\
  questionId result_first = questionId result_second /\
  ResultStorage.records_for (js "123456") (js "82751")
    (ResultStorage.addResult result_second (ResultStorage.addResult result_first []))
  = [result_first; result_second].
Proof.
  split; [reflexivity|]. split; [reflexivity|].
  exact (proj1 (addResult_appends [] result_first result_second eq_refl eq_refl)).
Defined.

(** C1 counterexample: two adds under one key leave two records. *)
Lemma addResult_twice_counterexample : ~ C1_claim.
Proof.
  unfold C1_claim. intros H.
  specialize (H [] result_first result_second eq_refl eq_refl).
  vm_compute in H. discriminate H.
Qed.

(** *** parseFileName and getSubmissionFiles *)

Lemma basename_path_join dir : FileParser.basename (FileParser.path_join dir late_file_name) = late_file_name.
Proof.
  unfold FileParser.basename, FileParser.path_join.
  rewrite rev_app_distr, rev_app_distr. reflexivity.
Qed.

(** C9: in single mode the name [1234567_LATE_123456_0001234_file.py]
    (under any directory) parses to studentNumber 1234567, studentId
    123456, submissionId 0001234, and the configured assignment id as
    questionId. *)
Theorem parseFileName_single_late (assignmentId dir : jstr) :
  FileParser.parseFileName assignmentId (FileParser.path_join dir late_file_name)
    FileParser.SINGLE =
  Some (mkSubmission (js "1234567") (js "123456") assignmentId (js "0001234")
          [FileParser.path_join dir late_file_name]).
Proof.
  unfold FileParser.parseFileName. rewrite basename_path_join. reflexivity.
Qed.

Section Grouping.

Import FileParser.

Lemma jstr_eqb_sym a b : jstr_eqb a b = jstr_eqb b a.
Proof.
  destruct (jstr_eqb a b) eqn:E1, (jstr_eqb b a) eqn:E2; auto.
  - apply jstr_eqb_eq in E1; subst. rewrite jstr_eqb_refl in E2. discriminate.
  - apply jstr_eqb_eq in E2; subst. rewrite jstr_eqb_refl in E1. discriminate.
Qed.

Lemma map_get_set k k' v m :
  map_get k (map_set k' v m) = if jstr_eqb k' k then Some v else map_get k m.
Proof.
  induction m as [|[k0 v0] m IH]; simpl; [reflexivity|].
  destruct (jstr_eqb k0 k') eqn:E1.
  - apply jstr_eqb_eq in E1; subst k0. simpl.
    destruct (jstr_eqb k' k); reflexivity.
  - simpl. rewrite IH.
    destruct (jstr_eqb k0 k) eqn:E2, (jstr_eqb k' k) eqn:E3; auto.
    apply jstr_eqb_eq in E2; apply jstr_eqb_eq in E3; subst.
    rewrite jstr_eqb_refl in E1. discriminate.
Qed.

Lemma map_get_notin k m : ~ In k (map fst m) -> map_get k m = None.
Proof.
  induction m as [|[k0 v0] m IH]; simpl; intros Hn; [reflexivity|].
  destruct (jstr_eqb k0 k) eqn:E.
  - apply jstr_eqb_eq in E. exfalso; auto.
  - apply IH. auto.
Qed.

Lemma in_keys_set x k v m :
  In x (map fst (map_set k v m)) -> x = k \/ In x (map fst m).
Proof.
  induction m as [|[k0 v0] m IH]; simpl.
  - intros [H|[]]; auto.
  - destruct (jstr_eqb k0 k) eqn:E; simpl.
    + intros [H|H]; auto.
    + intros [H|H]; auto. destruct (IH H); auto.
Qed.

Lemma keys_ok_set k v m : sub_studentId v = k -> keys_ok m -> keys_ok (map_set k v m).
Proof.
  intros Hv. induction m as [|[k0 v0] m IH]; simpl; intros [Hnd Hf].
  - split; [constructor; [intros []|constructor] | constructor; auto].
  - apply NoDup_cons_iff in Hnd as [Hnin Hnd'].
    apply Forall_cons_iff in Hf as [Hh Hf'].
    destruct (jstr_eqb k0 k) eqn:E.
    + apply jstr_eqb_eq in E; subst k0.
      split; [constructor; assumption | constructor; auto].
    + destruct (IH (conj Hnd' Hf')) as [Hnd2 Hf2].
      split; [|constructor; auto].
      simpl. constructor; [|exact Hnd2].
      intros Hin. destruct (in_keys_set _ _ _ _ Hin) as [->|Hin'].
      * rewrite jstr_eqb_refl in E. discriminate.
      * contradiction.
Qed.

Lemma keys_ok_add m i : keys_ok m -> keys_ok (add_info m i).
Proof.
  intros H. unfold add_info.
  destruct (map_get (sub_studentId i) m); apply keys_ok_set; auto.
Qed.

Lemma keys_ok_fold ps m : keys_ok m -> keys_ok (fold_left add_info ps m).
Proof.
  revert m; induction ps as [|i ps IH]; simpl; auto.
  intros m Hm. apply IH, keys_ok_add, Hm.
Qed.

Lemma filter_values k m :
  keys_ok m ->
  filter (fun r => jstr_eqb (sub_studentId r) k) (map snd m) =
  match map_get k m with Some v => [v] | None => [] end.
Proof.
  induction m as [|[k0 v0] m IH]; simpl; intros [Hnd Hf]; [reflexivity|].
  apply NoDup_cons_iff in Hnd as [Hnin Hnd'].
  apply Forall_cons_iff in Hf as [Hh Hf']. simpl in Hh, Hnin. rewrite Hh. clear Hh.
  destruct (jstr_eqb k0 k) eqn:E.
  - apply jstr_eqb_eq in E; subst k0.
    rewrite (IH (conj Hnd' Hf')), (map_get_notin _ _ Hnin). reflexivity.
  - apply IH. split; assumption.
Qed.

Lemma parseFileName_files aid p t i :
  parseFileName aid p t = Some i -> files i = [p].
Proof.
  unfold parseFileName. destruct t.
  - destruct (group_regex _) as [[[[[? ?] ?] ?] ?]|]; intros H; inversion H; reflexivity.
  - destruct (single_regex _) as [[[[? ?] ?] ?]|]; intros H; inversion H; reflexivity.
Qed.

Lemma fold_step_parsed aid dir t es m :
  fold_left (step aid dir t) es m = fold_left add_info (parsed_files aid dir t es) m.
Proof.
  revert m; induction es as [|e es IH]; intros m; simpl; [reflexivity|].
  unfold step. destruct (entry_isFile e); simpl; [|apply IH].
  destruct (parseFileName aid (path_join dir (entry_name e)) t); simpl; apply IH.
Qed.

Lemma parsed_singleton aid dir t es :
  Forall (fun i => exists p, files i = [p]) (parsed_files aid dir t es).
Proof.
  induction es as [|e es IH]; simpl; [constructor|].
  apply Forall_app; split; [|exact IH].
  destruct (entry_isFile e); [|constructor].
  destruct (parseFileName aid (path_join dir (entry_name e)) t) eqn:E; [|constructor].
  constructor; [|constructor]. exists (path_join dir (entry_name e)).
  exact (parseFileName_files _ _ _ _ E).
Qed.

Lemma add_info_eq m i :
  add_info m i =
  match map_get (sub_studentId i) m with
  | Some old =>
      map_set (sub_studentId i)
        (mkSubmission (studentNumber i) (sub_studentId i) (sub_questionId i)
           (submissionId i) (files old ++ firstn 1 (files i))) m
  | None => map_set (sub_studentId i) i m
  end.
Proof. reflexivity. Qed.

Lemma get_fold k ps :
  Forall (fun i => exists p, files i = [p]) ps ->
  map_get k (fold_left add_info ps []) =
  match filter (fun i => jstr_eqb (sub_studentId i) k) ps with
  | [] => None
  | i :: l =>
      let lst := last (i :: l) i in
      Some (mkSubmission (studentNumber lst) k (sub_questionId lst) (submissionId lst)
              (flat_map files (i :: l)))
  end.
  induction ps as [|x ps IH] using rev_ind; intros Hs; [reflexivity|].
  apply Forall_app in Hs as [Hs [p Hx]%Forall_inv].
  rewrite fold_left_app, filter_app. cbn [fold_left filter].
  rewrite add_info_eq.
  destruct (jstr_eqb (sub_studentId x) k) eqn:Ek.
  - apply jstr_eqb_eq in Ek.
    rewrite <- Ek in IH |- *. rewrite (IH Hs).
    destruct (filter _ ps) as [|i l]; lazy beta iota zeta;
      rewrite map_get_set, jstr_eqb_refl.
    + cbn [app]. destruct x as [a b c d f]; cbn in *. subst f.
      reflexivity.
    + change (match (i :: l) ++ [x] with
              | [] => None
              | i0 :: l0 => Some (mkSubmission (studentNumber (last (i0 :: l0) i0))
                   (sub_studentId x) (sub_questionId (last (i0 :: l0) i0))
                   (submissionId (last (i0 :: l0) i0)) (flat_map files (i0 :: l0)))
              end)
        with (Some (mkSubmission (studentNumber (last ((i :: l) ++ [x]) i))
                   (sub_studentId x) (sub_questionId (last ((i :: l) ++ [x]) i))
                   (submissionId (last ((i :: l) ++ [x]) i)) (flat_map files ((i :: l) ++ [x])))).
      rewrite last_last, flat_map_app. cbn [flat_map]. rewrite app_nil_r, Hx.
      reflexivity.
  - rewrite app_nil_r.
    transitivity (map_get k (fold_left add_info ps [])); [|apply IH, Hs].
    destruct (map_get (sub_studentId x) _); rewrite map_get_set, Ek; reflexivity.
Qed.

End Grouping.

(** C4 (amended): [getSubmissionFiles] groups by studentId alone.  For
    every studentId [k], the output holds one record with studentId [k] if
    some parsed file has it (none otherwise); its file list is the paths of
    all those files in listing order, and its studentNumber, questionId and
    submissionId are those of the last of them. *)
Theorem getSubmissionFiles_groups_by_student (assignmentId dir : jstr)
  (es : list FileParser.entry) (t : FileParser.AssignmentType) (k : jstr) :
  filter (fun r => jstr_eqb (sub_studentId r) k)
    (FileParser.getSubmissionFiles assignmentId dir (Some es) t)
  = expected_group k (parsed_files assignmentId dir t es).
Proof.
  unfold FileParser.getSubmissionFiles.
  rewrite fold_step_parsed, filter_values.
  - rewrite get_fold by apply parsed_singleton.
    unfold expected_group. destruct (filter _ _); reflexivity.
  - apply keys_ok_fold. split; constructor.
Qed.

(** C4 counterexample: a student's files for questions 000001 and 000002
    end up in one record. *)
Lemma getSubmissionFiles_merges_questions : ~ C4_claim.
Proof.
  unfold C4_claim. intros H.
  set (ps := parsed_files (js "a") (js "d") FileParser.GROUP two_questions_listing).
  apply (H (js "a") (js "d") two_questions_listing FileParser.GROUP
           (nth 0 ps sample_submission) (nth 1 ps sample_submission)).
  - apply nth_In. apply Nat.ltb_lt. reflexivity.
  - apply nth_In. apply Nat.ltb_lt. reflexivity.
  - reflexivity.
  - vm_compute. discriminate.
  - exists (hd sample_submission
              (FileParser.getSubmissionFiles (js "a") (js "d")
                 (Some two_questions_listing) FileParser.GROUP)).
    split.
    + vm_compute. left. reflexivity.
    + intros x Hx. vm_compute in Hx |- *. exact Hx.
Qed.







(** C7 (code evaluated at the failing input): in single-question mode a
    student who has submitted and is not yet graded, and whose grade-book
    result for (student, assignmentId) is present with grade 0 (or NaN), is
    only navigated to: [if (!gradeResult?.grade)] takes the present result
    for an absent one, and no score is applied. *)
Theorem single_mode_zero_grade_skipped binaryScore surf assignmentId events grades sid r :
  (forall st, Engine.status_get sid events = Some st ->
     Engine.hasSubmission st = true /\ Engine.hasGraded st = false) ->
  Engine.find_grade sid assignmentId grades = Some r ->
  Engine.num_falsy (Engine.g_grade r) = true ->
  Engine.processStudent true binaryScore surf assignmentId events grades sid = [Engine.Goto sid].
Proof.
  intros Hopen Hfind Hzero. unfold Engine.processStudent, Engine.single_branch.
  rewrite Hfind, Hzero.
  destruct (Engine.status_get sid events) as [st|] eqn:E; [|reflexivity].
  destruct (Hopen st eq_refl) as [-> ->]. reflexivity.
Qed.

Lemma single_mode_zero_grade_skipped_witness :
  Engine.processStudent true false (Engine.mkSurface (fun _ => true) true) (js "a")
    [Engine.mkStatus (js "s") true false]
    [Engine.mkGrade (js "s") (js "a") (NFin 0) (js "ok")] (js "s")
  = [Engine.Goto (js "s")].
Proof.
  apply (single_mode_zero_grade_skipped false (Engine.mkSurface (fun _ => true) true)
           (js "a") [Engine.mkStatus (js "s") true false]
           [Engine.mkGrade (js "s") (js "a") (NFin 0) (js "ok")] (js "s")
           (Engine.mkGrade (js "s") (js "a") (NFin 0) (js "ok"))).
  - intros st Hst. vm_compute in Hst. injection Hst as <-. split; reflexivity.
  - reflexivity.
  - reflexivity.
Defined.

(** C8 (amended): the acknowledgment rule differs by mode.  In single mode
    without binary scoring, a result with a nonzero grade fills the grading
    box with the grade and submits 已评分 when the grade is 10 (a fixed
    number, not the maximum) and otherwise the comment with every deduction
    phrase (an optional mark of [，,。.；;！!、：:], then 扣 N 分) removed; in
    binary mode the feedback is always 已评分.  In multi-question mode the
    question comment is 已批阅 when the grade equals the question's maximum
    and the raw comment otherwise. *)
Theorem feedback_by_mode surf (q : Engine.QuestionToReview) sid (r : Engine.GradeRecord) :
  Engine.g_studentId r = sid -> Engine.g_questionId r = Engine.q_id q ->
  Engine.num_falsy (Engine.g_grade r) = false ->
  Engine.processStudent true false surf (Engine.q_id q) [] [r] sid =
    [Engine.Goto sid; Engine.FillNum (js "#grading-box-extended") (Engine.g_grade r);
     Engine.SubmitFeedback (if Engine.num_eqb (Engine.g_grade r) (NFin 10)
                            then Engine.txt_graded
                            else Engine.replace_deduct (Engine.g_comment r))] /\
  Engine.processStudent true true surf (Engine.q_id q) [] [r] sid =
    Engine.Goto sid :: Engine.setQuestionGrade surf (Engine.q_id q) (Engine.g_grade r)
      ++ [Engine.SubmitFeedback Engine.txt_graded] /\
  Engine.gradeByPreviousGradingResults surf [r] q sid =
    Engine.setQuestionGrade surf (Engine.q_id q) (Engine.g_grade r) ++
    [Engine.Fill (js "#question_comment_" ++ Engine.q_id q)
       (if Engine.num_eqb (Engine.g_grade r) (Engine.maxPoints q)
        then Engine.txt_reviewed else Engine.g_comment r)].
Proof.
  intros Hs Hq Hf.
  assert (Hfind : Engine.find_grade sid (Engine.q_id q) [r] = Some r).
  { unfold Engine.find_grade. simpl. rewrite <- Hs, <- Hq, !jstr_eqb_refl. reflexivity. }
  unfold Engine.processStudent, Engine.gradeByPreviousGradingResults,
    Engine.single_branch. simpl Engine.status_get. cbv iota zeta.
  rewrite Hfind, Hf. split; [|split]; reflexivity.
Qed.

Lemma feedback_by_mode_witness :
  Engine.processStudent true false (Engine.mkSurface (fun _ => true) true) (js "a") []
    [Engine.mkGrade (js "s") (js "a") (NFin 7) comment_with_deduction] (js "s")
  = [Engine.Goto (js "s"); Engine.FillNum (js "#grading-box-extended") (NFin 7);
     Engine.SubmitFeedback [19981; 38169]].
Proof.
  destruct (feedback_by_mode (Engine.mkSurface (fun _ => true) true)
              (Engine.mkQuestion (js "a") (NFin 10)) (js "s")
              (Engine.mkGrade (js "s") (js "a") (NFin 7) comment_with_deduction)
              eq_refl eq_refl eq_refl) as [H _].
  cbn [Engine.q_id] in H. rewrite H. vm_compute. reflexivity.
Defined.

(** C8 counterexample: with maximum 10, a grade of 7 does not get the raw
    comment as feedback; its deduction phrase is removed. *)
Lemma single_mode_deduction_removed : ~ C8_claim.
Proof.
  unfold C8_claim. intros H.
  destruct (H (Engine.mkSurface (fun _ => true) true) (js "a") (js "s") (NFin 10)
              (Engine.mkGrade (js "s") (js "a") (NFin 7) comment_with_deduction)
              eq_refl eq_refl eq_refl) as [_ H2].
  specialize (H2 eq_refl). vm_compute in H2.
  repeat (destruct H2 as [H2|H2]; [discriminate H2|]). exact H2.
Qed.

(** ** Further properties of the code *)

(** *** parseFileName: file names built from their parts *)

Lemma take_while_app p a c r :
  forallb p a = true -> p c = false -> take_while p (a ++ c :: r) = (a, c :: r).
Proof.
  intros Ha Hc. induction a as [|x a IH]; simpl in *; [rewrite Hc; reflexivity|].
  apply andb_true_iff in Ha as [-> Ha]. rewrite (IH Ha). reflexivity.
Qed.

Lemma drop_slashes_cons c t : c <> 47 -> FileParser.drop_slashes (c :: t) = c :: t.
Proof.
  intros H. destruct c as [|p]; [reflexivity|].
  repeat (destruct p as [p|p|]; try reflexivity). contradiction.
Qed.

Lemma basename_join dir name :
  name <> [] -> ~ In 47 name -> FileParser.basename (FileParser.path_join dir name) = name.
Proof.
  intros Hne Hin. unfold FileParser.basename, FileParser.path_join.
  rewrite rev_app_distr, rev_app_distr, <- app_assoc.
  assert (Hr : forallb (fun c => negb (c =? 47)) (rev name) = true).
  { apply forallb_forall. intros x Hx. apply in_rev in Hx.
    destruct (N.eqb_spec x 47); [subst; contradiction | reflexivity]. }
  destruct (rev name) as [|x t] eqn:E.
  - apply (f_equal (@rev N)) in E. rewrite rev_involutive in E. contradiction.
  - cbn [app]. rewrite drop_slashes_cons.
    + change (x :: t ++ rev [47] ++ rev dir) with ((x :: t) ++ 47 :: rev dir).
      rewrite (take_while_app _ (x :: t) 47 (rev dir) Hr eq_refl).
      simpl fst. rewrite <- E, rev_involutive. reflexivity.
    + simpl in Hr. destruct (N.eqb_spec x 47); [discriminate Hr | assumption].
Qed.

Lemma digits_n_app n d r :
  List.length d = n -> forallb is_digit d = true -> FileParser.digits_n n (d ++ r) = Some (d, r).
Proof.
  revert n; induction d as [|c d IH]; intros [|n] Hl Hd; simpl in *; try discriminate; auto.
  apply andb_true_iff in Hd as [-> Hd]. rewrite (IH n) by (auto; lia). reflexivity.
Qed.

Lemma strip_prefix_app p r : strip_prefix p (p ++ r) = Some r.
Proof. induction p as [|x p IH]; simpl; [reflexivity|]. rewrite N.eqb_refl. exact IH. Qed.

Lemma rest_of_line_ok s :
  s <> [] -> existsb is_line_terminator s = false -> FileParser.rest_of_line s = Some s.
Proof.
  intros Hne Hl. unfold FileParser.rest_of_line. rewrite Hl. destruct s; [contradiction|reflexivity].
Qed.

Lemma digits_no_slash d : forallb is_digit d = true -> ~ In 47 d.
Proof.
  intros H Hin. rewrite forallb_forall in H. specialize (H _ Hin). discriminate H.
Qed.

Lemma digits_head_not d r c :
  List.length d = 6%nat -> forallb is_digit d = true -> is_digit c = false ->
  strip_prefix (c :: r) (d ++ []) = None.
Abort.

Lemma single_tail_ok sid sub fname :
  List.length sid = 6%nat -> forallb is_digit sid = true ->
  List.length sub = 7%nat -> forallb is_digit sub = true ->
  fname <> [] -> existsb is_line_terminator fname = false ->
  FileParser.single_tail (sid ++ js "_" ++ sub ++ js "_" ++ fname) = Some (sid, sub, fname).
Proof.
  intros. unfold FileParser.single_tail.
  rewrite digits_n_app by assumption. rewrite strip_prefix_app.
  rewrite digits_n_app by assumption. rewrite strip_prefix_app.
  rewrite rest_of_line_ok by assumption. reflexivity.
Qed.

(** In single mode, [parseFileName] reads back the parts of a file name
    <7-digit student number>_[LATE_]<6-digit studentId>_<7-digit
    submissionId>_<name> joined to a directory: the questionId is the
    assignment id and the file list is the path. *)
Theorem parseFileName_single_roundtrip assignmentId dir sn sid sub fname (late : bool) :
  List.length sn = 7%nat -> forallb is_digit sn = true ->
  List.length sid = 6%nat -> forallb is_digit sid = true ->
  List.length sub = 7%nat -> forallb is_digit sub = true ->
  fname <> [] -> ~ In 47 fname -> existsb is_line_terminator fname = false ->
  let path := FileParser.path_join dir (single_name late sn sid sub fname) in
  FileParser.parseFileName assignmentId path FileParser.SINGLE =
  Some (mkSubmission sn sid assignmentId sub [path]).
Proof.
  intros Hsn Dsn Hsid Dsid Hsub Dsub Hne Hsl Hlt path.
  unfold FileParser.parseFileName. subst path.
  rewrite basename_join.
  2:{ unfold single_name. destruct sn; [discriminate|discriminate]. }
  2:{ unfold single_name. rewrite !in_app_iff.
      intros [H|[H|[H|[H|[H|[H|[H|H]]]]]]];
        try (apply (digits_no_slash _ Dsn H)); try (apply (digits_no_slash _ Dsid H));
        try (apply (digits_no_slash _ Dsub H)); try contradiction;
        try (destruct late; simpl in H; intuition discriminate). }
  unfold FileParser.single_regex, single_name.
  rewrite digits_n_app by assumption. rewrite strip_prefix_app.
  destruct late.
  - rewrite strip_prefix_app, single_tail_ok by assumption. reflexivity.
  - cbn [app].
    assert (Hn : strip_prefix (js "LATE_") (sid ++ js "_" ++ sub ++ js "_" ++ fname) = None).
    { destruct sid as [|c s]; [discriminate|]. simpl in Dsid.
      apply andb_true_iff in Dsid as [Dc _].
      assert (E : (76 =? c) = false).
      { apply N.eqb_neq. intros <-. discriminate Dc. }
      change (js "LATE_") with (76 :: js "ATE_"). cbn [strip_prefix app].
      rewrite E. reflexivity. }
    rewrite Hn, single_tail_ok by assumption. reflexivity.
Qed.

(** In group mode, [parseFileName] reads back the parts of a file name
    <7 digits><6-digit studentId>_question_<6-digit questionId>_<7-digit
    submissionId>_<name> joined to a directory. *)
Theorem parseFileName_group_roundtrip assignmentId dir sn sid qid sub fname :
  List.length sn = 7%nat -> forallb is_digit sn = true ->
  List.length sid = 6%nat -> forallb is_digit sid = true ->
  List.length qid = 6%nat -> forallb is_digit qid = true ->
  List.length sub = 7%nat -> forallb is_digit sub = true ->
  fname <> [] -> ~ In 47 fname -> existsb is_line_terminator fname = false ->
  let path := FileParser.path_join dir (group_name sn sid qid sub fname) in
  FileParser.parseFileName assignmentId path FileParser.GROUP =
  Some (mkSubmission sn sid qid sub [path]).
Proof.
  intros Hsn Dsn Hsid Dsid Hq Dq Hsub Dsub Hne Hsl Hlt path.
  unfold FileParser.parseFileName. subst path.
  rewrite basename_join.
  2:{ unfold group_name. destruct sn; [discriminate|discriminate]. }
  2:{ unfold group_name. rewrite !in_app_iff.
      intros [H|[H|[H|[H|[H|[H|[H|H]]]]]]];
        try (apply (digits_no_slash _ Dsn H)); try (apply (digits_no_slash _ Dsid H));
        try (apply (digits_no_slash _ Dq H));
        try (apply (digits_no_slash _ Dsub H)); try contradiction;
        try (simpl in H; intuition discriminate). }
  unfold FileParser.group_regex, group_name.
  rewrite digits_n_app by assumption. rewrite digits_n_app by assumption.
  rewrite strip_prefix_app. rewrite digits_n_app by assumption.
  rewrite strip_prefix_app. rewrite digits_n_app by assumption.
  rewrite strip_prefix_app. rewrite rest_of_line_ok by assumption. reflexivity.
Qed.

(** *** getSubmissionFiles: the grouping partitions the parsed files *)

Section GroupingMore.

Import FileParser.

Lemma map_set_new k v m : map_get k m = None -> map_set k v m = m ++ [(k, v)].
Proof.
  induction m as [|[k0 v0] m IH]; simpl; [reflexivity|].
  destruct (jstr_eqb k0 k); [discriminate|]. intros H. rewrite (IH H). reflexivity.
Qed.

Lemma map_set_old k v m old :
  map_get k m = Some old ->
  exists m1 m2 k', m = m1 ++ (k', old) :: m2 /\ map_set k v m = m1 ++ (k', v) :: m2.
Proof.
  induction m as [|[k0 v0] m IH]; simpl; [discriminate|].
  destruct (jstr_eqb k0 k).
  - intros H; injection H as ->. exists [], m, k0. split; reflexivity.
  - intros H. destruct (IH H) as (m1 & m2 & k' & -> & ->).
    exists ((k0, v0) :: m1), m2, k'. split; reflexivity.
Qed.

Lemma map_set_forall (P : SubmissionInfo -> Prop) k v m :
  Forall (fun kv => P (snd kv)) m -> P v -> Forall (fun kv => P (snd kv)) (map_set k v m).
Proof.
  intros Hm Hv. induction Hm as [|[k0 v0] m H0 Hm IH]; simpl.
  - constructor; auto.
  - destruct (jstr_eqb k0 k); constructor; auto.
Qed.

Lemma add_info_files m i p :
  files i = [p] ->
  Permutation (flat_map files (map snd (add_info m i)))
              (flat_map files (map snd m) ++ [p]).
Proof.
  intros Hi. rewrite add_info_eq.
  destruct (map_get (sub_studentId i) m) as [old|] eqn:E.
  - destruct (map_set_old _ (mkSubmission (studentNumber i) (sub_studentId i)
        (sub_questionId i) (submissionId i) (files old ++ firstn 1 (files i))) _ _ E)
      as (m1 & m2 & k' & -> & ->).
    rewrite Hi. simpl firstn.
    rewrite !map_app, !flat_map_app. cbn [map flat_map snd files].
    rewrite <- !app_assoc. apply Permutation_app_head.
    rewrite <- ?app_assoc. apply Permutation_app_head.
    apply Permutation_app_comm.
  - rewrite (map_set_new _ _ _ E), map_app, flat_map_app. cbn [map flat_map snd].
    rewrite Hi. apply Permutation_refl.
Qed.

Lemma fold_files ps m :
  Forall (fun i => exists p, files i = [p]) ps ->
  Permutation (flat_map files (map snd (fold_left add_info ps m)))
              (flat_map files (map snd m) ++ flat_map files ps).
Proof.
  revert m; induction ps as [|i ps IH]; intros m Hs; simpl.
  - rewrite app_nil_r. apply Permutation_refl.
  - apply Forall_cons_iff in Hs as [[p Hp] Hs].
    eapply Permutation_trans; [apply IH, Hs|].
    rewrite Hp. cbn [app]. 
    eapply Permutation_trans; [apply Permutation_app_tail, (add_info_files m i p Hp)|].
    rewrite <- app_assoc. apply Permutation_refl.
Qed.

Lemma fold_nonempty ps m :
  Forall (fun i => exists p, files i = [p]) ps ->
  Forall (fun kv => files (snd kv) <> []) m ->
  Forall (fun kv => files (snd kv) <> []) (fold_left add_info ps m).
Proof.
  revert m; induction ps as [|i ps IH]; intros m Hs Hm; simpl; [exact Hm|].
  apply Forall_cons_iff in Hs as [[p Hp] Hs]. apply IH; [exact Hs|].
  rewrite add_info_eq. destruct (map_get (sub_studentId i) m) as [old|];
    apply (map_set_forall (fun v => files v <> [])); auto; simpl; rewrite Hp.
  - destruct (files old); discriminate.
  - discriminate.
Qed.

End GroupingMore.

(** [getSubmissionFiles] gives one record per studentId, each with at
    least one file, and its file lists together are a permutation of the
    paths of the parsed files of the listing: no file is lost or
    duplicated. *)
Theorem getSubmissionFiles_partition (assignmentId dir : jstr)
  (es : list FileParser.entry) (t : FileParser.AssignmentType) :
  let out := FileParser.getSubmissionFiles assignmentId dir (Some es) t in
  NoDup (map sub_studentId out) /\
  Forall (fun r => files r <> []) out /\
  Permutation (flat_map files out) (flat_map files (parsed_files assignmentId dir t es)).
Proof.
  cbv zeta. unfold FileParser.getSubmissionFiles. rewrite fold_step_parsed.
  assert (Hs := parsed_singleton assignmentId dir t es).
  destruct (keys_ok_fold (parsed_files assignmentId dir t es) [] (conj (NoDup_nil _) (Forall_nil _)))
    as [Hnd Hk].
  split; [|split].
  - replace (map sub_studentId (map snd (fold_left FileParser.add_info (parsed_files assignmentId dir t es) [])))
      with (map fst (fold_left FileParser.add_info (parsed_files assignmentId dir t es) []));
      [exact Hnd|].
    rewrite map_map. apply map_ext_Forall. eapply Forall_impl; [|exact Hk].
    intros kv H; simpl in H; symmetry; exact H.
  - apply Forall_map. apply (fold_nonempty _ [] Hs (Forall_nil _)).
  - apply (fold_files _ [] Hs).
Qed.

(** *** GradingService: stored grades and the textual fallback *)

Section GraderMore.

Variable num_to_string : Q -> jstr.

Variable native_message : exn -> jstr.

Variable now : jstr.

Lemma stored_grade_number gv b :
  let g := match gv with JStr s => JNum (parseFloat s) | v => v end in
  is_nan num_to_string g = Ret b ->
  (if b then JNum (NFin 0) else g) <> JNum NNaN /\
  forall s, (if b then JNum (NFin 0) else g) <> JStr s.
Proof.
  cbv zeta. destruct b; [intros _; split; discriminate|].
  destruct gv as [| |n|s|l|m]; intros H; split; try (intros s' E; discriminate E);
    intros E; try discriminate E.
  - injection E as ->. discriminate H.
  - injection E as E. simpl in H. rewrite E in H. discriminate H.
Qed.

Lemma parse_try_grade response sid qid r :
  parse_try num_to_string now response sid qid = Ret r ->
  grade r <> JNum NNaN /\ forall s, grade r <> JStr s.
Proof.
  unfold parse_try, bind. cbv zeta.
  destruct (JSON_parse response) as [data|e]; [|no_throw].
  destruct (get_prop data (js "grade")) as [[g0|]|e]; [| no_throw | no_throw].
  destruct (get_prop data (js "comment")) as [[c|]|e]; [| no_throw | no_throw].
  match goal with |- context [is_nan num_to_string ?x] =>
    destruct (is_nan num_to_string x) as [b|e] eqn:En end; [|no_throw].
  match goal with |- context [method_toString num_to_string ?x] =>
    destruct (method_toString num_to_string x) end; [|no_throw].
  intros H; injection H as <-. exact (stored_grade_number _ _ En).
Qed.

(** The grade stored by [GradingService.gradeSubmission] is never NaN and
    never a string: a string grade is converted by [parseFloat] and a NaN
    one replaced by 0. *)
Theorem gradeSubmission_grade_is_number (submission : SubmissionInfo) (llm : Exc jstr) :
  let g := grade (gradeSubmission num_to_string native_message now submission llm) in
  g <> JNum NNaN /\ forall s, g <> JStr s.
Proof.
  cbv zeta. unfold gradeSubmission, try_catch, grade_try, bind.
  destruct llm as [response|e]; [|split; discriminate].
  destruct response as [|c t]; [split; discriminate|].
  destruct (js_ToString num_to_string _); [|split; discriminate].
  unfold parseResponse, try_catch.
  destruct (parse_try num_to_string now (c :: t) _ _) eqn:E.
  - exact (parse_try_grade _ _ _ _ E).
  - unfold parse_catch. destruct (grade_regex_search (c :: t)) as [[g cm]|];
      simpl; (split; [|discriminate]);
      [destruct (parseFloat g); simpl; discriminate | discriminate].
Qed.

Lemma grade_regex_search_skip pre s :
  ~ In 34 pre -> grade_regex_search (pre ++ s) = grade_regex_search s.
Proof.
  induction pre as [|x pre IH]; intros Hn; [reflexivity|].
  simpl in Hn. cbn [app]. simpl grade_regex_search at 1.
  unfold grade_regex_at at 1.
  assert (E : (34 =? x) = false) by (apply N.eqb_neq; intros Ex; subst x; auto).
  change (dq ++ js "grade" ++ dq ++ js ":") with (34 :: js "grade" ++ dq ++ js ":").
  cbn [strip_prefix]. rewrite E. apply IH. auto.
Qed.

Lemma lazy_until_quote_app c post :
  ~ In 34 c -> existsb is_line_terminator c = false ->
  lazy_until_quote (c ++ 34 :: post) = Some c.
Proof.
  induction c as [|x c IH]; intros Hq Hl; [reflexivity|].
  simpl in Hq, Hl. apply orb_false_iff in Hl as [Hx Hl].
  cbn [app].
  assert (lazy_until_quote (x :: c ++ 34 :: post) =
          if is_line_terminator x then None
          else match lazy_until_quote (c ++ 34 :: post) with
               | Some t => Some (x :: t) | None => None end) as ->.
  { destruct x as [|p]; [reflexivity|].
    repeat (destruct p as [p|p|]; try reflexivity). exfalso; auto. }
  rewrite Hx, IH by auto. reflexivity.
Qed.

Lemma digit_or_dot_not_space c : is_digit_or_dot c = true -> is_js_space c = false.
Proof.
  unfold is_digit_or_dot, is_digit. intros H.
  apply orb_true_iff in H as [H|H].
  - apply andb_true_iff in H as [H1 H2]. apply N.leb_le in H1, H2.
    assert (c = 48 \/ c = 49 \/ c = 50 \/ c = 51 \/ c = 52 \/ c = 53 \/ c = 54 \/
            c = 55 \/ c = 56 \/ c = 57) by lia.
    repeat (destruct H as [->|H]; [reflexivity|]). subst; reflexivity.
  - apply N.eqb_eq in H. subst. reflexivity.
Qed.

Lemma skip_js_space_stop c s : is_js_space c = false -> skip_js_space (c :: s) = c :: s.
Proof. intros H. simpl. rewrite H. reflexivity. Qed.

Lemma grade_regex_search_at s m : grade_regex_at s = Some m -> grade_regex_search s = Some m.
Proof. intros H. destruct s; cbn [grade_regex_search]; rewrite H; reflexivity. Qed.

Lemma grade_regex_at_text g c post :
  g <> [] -> forallb is_digit_or_dot g = true ->
  ~ In 34 c -> existsb is_line_terminator c = false ->
  grade_regex_at (text_form g c post) = Some (g, c).
Proof.
  intros Hne Hg Hq Hl. unfold grade_regex_at, text_form.
  change (dq ++ js "grade" ++ dq ++ js ":" ++ ?r) with ((dq ++ js "grade" ++ dq ++ js ":") ++ r).
  rewrite strip_prefix_app.
  destruct g as [|g0 g']; [contradiction|].
  assert (H0 : is_digit_or_dot g0 = true) by (simpl in Hg; apply andb_true_iff in Hg; tauto).
  change (js " " ++ ?r) with (32 :: r).
  change (skip_js_space (32 :: ?r)) with (skip_js_space r).
  rewrite <- app_comm_cons, skip_js_space_stop by (apply digit_or_dot_not_space, H0).
  change (js ", " ++ ?r) with (44 :: 32 :: r).
  rewrite app_comm_cons, (take_while_app _ (g0 :: g') 44 _ Hg eq_refl).
  change (skip_js_space (32 :: ?r)) with (skip_js_space r).
  change (dq ++ js "comment" ++ dq ++ js ":" ++ ?r) with ((dq ++ js "comment" ++ dq ++ js ":") ++ r).
  change (skip_js_space ((dq ++ js "comment" ++ dq ++ js ":") ++ ?r))
    with ((dq ++ js "comment" ++ dq ++ js ":") ++ r).
  rewrite strip_prefix_app.
  change (skip_js_space (js " " ++ dq ++ c ++ dq ++ post)) with (34 :: c ++ 34 :: post).
  cbv iota. rewrite lazy_until_quote_app by assumption. reflexivity.
Qed.

(** An answer that is not JSON but contains the text
    "grade": <digits and dots>, "comment": "<text>" after a prefix without
    double quotes gives the grade [parseFloat] of the digits (0 if NaN) and
    the comment text. *)
Theorem parseResponse_text_fallback sid qid pre g c post :
  ~ In 34 pre -> g <> [] -> forallb is_digit_or_dot g = true ->
  ~ In 34 c -> existsb is_line_terminator c = false ->
  JSON_parse (pre ++ text_form g c post) = Throw SyntaxError ->
  parseResponse num_to_string native_message now (pre ++ text_form g c post) sid qid =
  result_of now sid qid
    (JNum (if num_is_nan (parseFloat g) then NFin 0 else parseFloat g)) c.
Proof.
  intros Hpre Hne Hg Hq Hl Hjs.
  unfold parseResponse, try_catch, parse_try, bind. rewrite Hjs.
  unfold parse_catch. rewrite grade_regex_search_skip by exact Hpre.
  rewrite (grade_regex_search_at _ _ (grade_regex_at_text g c post Hne Hg Hq Hl)).
  reflexivity.
Qed.

End GraderMore.

(** *** LLMService.batchProcess: the polling outcomes *)

Lemma poll_tick_pending error_text (b : Batch.batch) :
  Batch_pending (Batch.b_status b) -> Batch.poll_tick error_text (Ret b) = None.
Proof.
  intros Hp. unfold Batch.poll_tick.
  destruct b as [? [] ? ? ?]; simpl in Hp |- *; try reflexivity;
    repeat (destruct Hp as [Hp|Hp]; [discriminate Hp|]); contradiction.
Qed.

Lemma checkStatus_skip error_text observe :
  forall m k ticks,
  (forall j, (j < m)%nat -> exists bj, observe (k + j)%nat = Ret bj /\ Batch_pending (Batch.b_status bj)) ->
  (m <= ticks)%nat ->
  Batch.checkStatus error_text ticks observe k =
  Batch.checkStatus error_text (ticks - m) observe (k + m).
Proof.
  induction m as [|m IH]; intros k ticks Hpre Hle.
  - rewrite Nat.sub_0_r, Nat.add_0_r. reflexivity.
  - destruct ticks as [|t]; [lia|]. simpl.
    destruct (Hpre 0%nat ltac:(lia)) as [b0 [Hb0 Hp]].
    rewrite Nat.add_0_r in Hb0. rewrite Hb0, poll_tick_pending by exact Hp.
    replace (k + S m)%nat with (S k + m)%nat by lia.
    apply IH; [|lia].
    intros j Hj. replace (S k + j)%nat with (k + S j)%nat by lia. apply Hpre. lia.
Qed.

(** When every poll of the 24 hours sees a pending status, the batch
    operation fails with the timeout message. *)
Theorem batchProcess_timeout error_text folder batchId observe final (ticks : nat) :
  (forall j, (j < ticks)%nat -> exists bj, observe j = Ret bj /\ Batch_pending (Batch.b_status bj)) ->
  Batch.batchProcess error_text folder true (Ret batchId) ticks observe final =
  Throw (Error (js "Batch processing timeout after 24 hours")).
Proof.
  intros Hpre. unfold Batch.batchProcess. simpl.
  rewrite (checkStatus_skip error_text observe ticks 0 ticks Hpre (le_n _)).
  rewrite Nat.sub_diag. reflexivity.
Qed.

(** A failed retrieve while the job is still pending ends the polling:
    the batch operation fails with "Error checking batch status: " and the
    error. *)
Theorem batchProcess_poll_error error_text folder batchId observe final (n ticks : nat) e :
  (forall j, (j < n)%nat -> exists bj, observe j = Ret bj /\ Batch_pending (Batch.b_status bj)) ->
  observe n = Throw e ->
  (n < ticks)%nat ->
  Batch.batchProcess error_text folder true (Ret batchId) ticks observe final =
  Throw (Error (js "Error checking batch status: " ++ error_text e)).
Proof.
  intros Hpre He Hlt. unfold Batch.batchProcess. simpl.
  rewrite (checkStatus_skip error_text observe n 0 ticks Hpre ltac:(lia)).
  destruct (ticks - n)%nat as [|t] eqn:Et; [lia|]. simpl.
  rewrite He. reflexivity.
Qed.

(** *** llm-api.ts: parseGradingResponse and gradeSubmission *)

Lemma search_some {A} (m : jstr -> option A) s a :
  LlmApi.search m s = Some a -> exists s', m s' = Some a.
Proof.
  induction s as [|c s IH]; simpl; destruct (m _) eqn:E; intros H;
    try (injection H as <-; eexists; exact E); try discriminate; auto.
Qed.

Lemma search_first {A} (m : jstr -> option A) s a :
  m s = Some a -> LlmApi.search m s = Some a.
Proof. intros H. destruct s; simpl; rewrite H; reflexivity. Qed.

Lemma search_skip {A} (m : jstr -> option A) pre s :
  (forall c t, In c pre -> m (c :: t) = None) ->
  LlmApi.search m (pre ++ s) = LlmApi.search m s.
Proof.
  induction pre as [|c pre IH]; intros H; [reflexivity|].
  cbn [app]. simpl LlmApi.search. rewrite H by (left; reflexivity).
  apply IH. intros c' t Hc. apply H. right. exact Hc.
Qed.

Lemma search_skip_one {A} (m : jstr -> option A) c s :
  m (c :: s) = None -> LlmApi.search m (c :: s) = LlmApi.search m s.
Proof. intros H. simpl. rewrite H. reflexivity. Qed.

Lemma digits_value_nonneg_acc l acc :
  (0 <= acc)%Z ->
  (0 <= fold_left (fun acc c => (acc * 10 + Z.of_N (c - 48))%Z) l acc)%Z.
Proof.
  revert acc; induction l as [|c l IH]; intros acc H; simpl; [exact H|].
  apply IH. lia.
Qed.

Lemma decimal_value_nonneg int frac e : (0 <= decimal_value false int frac e)%Q.
Proof.
  unfold decimal_value. assert (Hm := digits_value_nonneg_acc (int ++ frac) 0 (Z.le_refl 0)).
  fold (digits_value (int ++ frac)) in Hm.
  destruct (0 <=? _)%Z eqn:Ek.
  - unfold Qle; simpl. apply Z.leb_le in Ek.
    assert (0 <= 10 ^ (e - Z.of_nat (List.length frac)))%Z by (apply Z.pow_nonneg; lia).
    nia.
  - unfold Qle; simpl. lia.
Qed.

Lemma is_digit_cases c :
  is_digit c = true ->
  c = 48 \/ c = 49 \/ c = 50 \/ c = 51 \/ c = 52 \/ c = 53 \/ c = 54 \/
  c = 55 \/ c = 56 \/ c = 57.
Proof.
  unfold is_digit. intros H. apply andb_true_iff in H as [H1 H2].
  apply N.leb_le in H1, H2. lia.
Qed.

Lemma parseFloat_digit c rest :
  is_digit c = true -> exists q, parseFloat (c :: rest) = NFin q /\ (0 <= q)%Q.
Proof.
  intros Hc. unfold parseFloat.
  assert (Hd : exists d r, take_digits (c :: rest) = (c :: d, r)).
  { simpl. rewrite Hc. destruct (take_digits rest) as [d r]. exists d, r. reflexivity. }
  destruct Hd as (d & r & Hd).
  assert (Hs : skip_js_space (c :: rest) = c :: rest).
  { apply skip_js_space_stop, digit_or_dot_not_space. unfold is_digit_or_dot. rewrite Hc. reflexivity. }
  rewrite Hs.
  assert (Hdp : decimal_prefix (c :: rest) =
    let (int, s2) := take_digits (c :: rest) in
    let '(frac, s3) := match s2 with 46 :: t => take_digits t | _ => ([], s2) end in
    match int, frac with
    | [], [] => None
    | _, _ => let (e, s4) := str_exponent s3 in
              Some (NFin (decimal_value false int frac e), s4)
    end).
  { apply is_digit_cases in Hc. repeat (destruct Hc as [->|Hc]; [reflexivity|]).
    subst; reflexivity. }
  rewrite Hdp, Hd.
  destruct (match r with 46 :: t => take_digits t | _ => ([], r) end) as [frac s3].
  destruct (str_exponent s3) as [e s4].
  eexists. split; [reflexivity|]. apply decimal_value_nonneg.
Qed.

Lemma take_digits_head s c d r : take_digits s = (c :: d, r) -> is_digit c = true.
Proof.
  destruct s as [|x s]; simpl; [discriminate|].
  destruct (is_digit x) eqn:E; [|discriminate].
  destruct (take_digits s). intros H; injection H as <- _ _. exact E.
Qed.

Lemma score_at_value s d :
  LlmApi.score_at s = Some d -> exists q, parseFloat d = NFin q /\ (0 <= q)%Q.
Proof.
  unfold LlmApi.score_at. destruct (LlmApi.ci_strip _ s) as [r|]; [|discriminate].
  destruct (take_digits (skip_js_space r)) as [[|c d0] r2] eqn:E; [discriminate|].
  apply take_digits_head in E.
  destruct r2 as [|x t]; [intros H; injection H as <-; apply parseFloat_digit, E|].
  assert (Hx : forall A (a b : A), (if x =? 46 then a else b) = match x with 46 => a | _ => b end).
  { intros A a b. destruct x as [|p]; [reflexivity|].
    repeat (destruct p as [p|p|]; try reflexivity). }
  intros H.
  assert (H' : (if x =? 46 then match take_digits t with
                               | ([], _) => Some (c :: d0)
                               | (f, _) => Some ((c :: d0) ++ [46] ++ f) end
                else Some (c :: d0)) = Some d).
  { rewrite Hx. exact H. }
  clear H. destruct (x =? 46).
  - destruct (take_digits t) as [[|f0 f] ?]; injection H' as <-; apply parseFloat_digit, E.
  - injection H' as <-. apply parseFloat_digit, E.
Qed.

Lemma score_value s :
  exists q, match LlmApi.search LlmApi.score_at s with
            | Some d => parseFloat d | None => NFin 0 end = NFin q /\ (0 <= q)%Q.
Proof.
  destruct (LlmApi.search LlmApi.score_at s) as [d|] eqn:E.
  - destruct (search_some _ _ _ E) as [s' Hs']. exact (score_at_value _ _ Hs').
  - exists 0%Q. split; [reflexivity|lra].
Qed.

Lemma clamp_value v m :
  (0 <= v)%Q ->
  exists q, LlmApi.math_min (LlmApi.math_max (NFin 0) (NFin v)) (NFin m) = NFin q /\
            (q == if Qle_bool v m then v else m)%Q.
Proof.
  intros Hv. unfold LlmApi.math_max, LlmApi.math_min, LlmApi.num_lt. simpl.
  destruct (Qle_bool v 0) eqn:E0; simpl.
  - apply Qle_bool_iff in E0. destruct (Qle_bool 0 m) eqn:E1; simpl.
    + exists 0%Q. split; [reflexivity|].
      apply Qle_bool_iff in E1. assert (Hv' : Qle_bool v m = true) by (apply Qle_bool_iff; lra).
      rewrite Hv'. lra.
    + exists m. split; [reflexivity|].
      assert (Hv' : Qle_bool v m = false).
      { apply not_true_iff_false. intros Hc. apply Qle_bool_iff in Hc.
        apply not_true_iff_false in E1. apply E1, Qle_bool_iff. lra. }
      rewrite Hv'. reflexivity.
  - destruct (Qle_bool v m) eqn:E1; simpl.
    + exists v. split; reflexivity.
    + exists m. split; reflexivity.
Qed.

Lemma parseGradingResponse_score_bounds response (m : Q) :
  (0 <= m)%Q ->
  exists q, LlmApi.score (LlmApi.parseGradingResponse response (NFin m)) = NFin q /\
            (0 <= q)%Q /\ (q <= m)%Q.
Proof.
  intros Hm. unfold LlmApi.parseGradingResponse. cbn [LlmApi.score].
  destruct (score_value response) as [v [-> Hv]].
  destruct (clamp_value v m Hv) as [q [-> Hq]].
  exists q. split; [reflexivity|].
  destruct (Qle_bool v m) eqn:E; [apply Qle_bool_iff in E|]; split; lra.
Qed.

(** For a non-negative [maxPoints], the score of the llm-api
    [gradeSubmission] is a number between 0 and [maxPoints], whatever the
    completion, including a failed call. *)
Theorem llm_gradeSubmission_score_bounds (completion : Exc (option jstr)) (m : Q) :
  (0 <= m)%Q ->
  exists q, LlmApi.score (LlmApi.gradeSubmission completion (NFin m)) = NFin q /\
            (0 <= q)%Q /\ (q <= m)%Q.
Proof.
  intros Hm. destruct completion as [content|e];
    cbv beta iota zeta delta [LlmApi.gradeSubmission try_catch bind].
  - apply parseGradingResponse_score_bounds, Hm.
  - exists 0%Q. split; [reflexivity|lra].
Qed.

Lemma skip_js_space_app a b :
  skip_js_space (a ++ b) = match skip_js_space a with [] => skip_js_space b | r => r ++ b end.
Proof.
  induction a as [|c a IH]; [reflexivity|]. simpl. destruct (is_js_space c); [exact IH|reflexivity].
Qed.

Lemma skip_js_space_idem s : skip_js_space (skip_js_space s) = skip_js_space s.
Proof.
  induction s as [|c s IH]; [reflexivity|]. simpl. destruct (is_js_space c) eqn:E; [exact IH|].
  simpl. rewrite E. reflexivity.
Qed.

Lemma trim_skip s : trim (skip_js_space s) = trim s.
Proof. unfold trim. rewrite skip_js_space_idem. reflexivity. Qed.

Lemma trim_snoc_space s c : is_js_space c = true -> trim (s ++ [c]) = trim s.
Proof.
  intros Hc. unfold trim. rewrite skip_js_space_app.
  destruct (skip_js_space s) as [|h t] eqn:E.
  - cbn [skip_js_space]. rewrite Hc. reflexivity.
  - rewrite rev_app_distr. cbn [rev app skip_js_space]. rewrite Hc. reflexivity.
Qed.

Lemma In_skip c s : In c (skip_js_space s) -> In c s.
Proof.
  induction s as [|x s IH]; simpl; [tauto|]. destruct (is_js_space x); simpl; tauto.
Qed.

Lemma ascii_upper_colon c : LlmApi.ascii_upper c = 58 -> c = 58.
Proof.
  unfold LlmApi.ascii_upper. destruct ((97 <=? c) && (c <=? 122)) eqn:E; [|auto].
  apply andb_true_iff in E as [E1 E2]. apply N.leb_le in E1, E2. lia.
Qed.

Lemma ci_strip_newline L w r :
  ~ In 10 L -> ~ In 58 w -> LlmApi.ci_strip (L ++ [58]) (w ++ 10 :: r) = None.
Proof.
  revert w; induction L as [|x L IH]; intros w HL Hw.
  - destruct w as [|c w]; [reflexivity|]. cbn [app LlmApi.ci_strip].
    destruct (N.eqb_spec (LlmApi.ascii_upper c) 58) as [E|E]; [|reflexivity].
    apply ascii_upper_colon in E. subst. exfalso. apply Hw. left. reflexivity.
  - destruct w as [|c w]; cbn [app LlmApi.ci_strip].
    + assert (E : (LlmApi.ascii_upper 10 =? x) = false).
      { apply N.eqb_neq. intros E. apply HL. left. rewrite <- E. reflexivity. }
      rewrite E. reflexivity.
    + destruct (LlmApi.ascii_upper c =? x); [|reflexivity].
      apply IH; [intros H; apply HL; right; exact H | intros H; apply Hw; right; exact H].
Qed.

Lemma search_skip_pos {A} (m : jstr -> option A) pre s :
  (forall i, (i < List.length pre)%nat -> m (skipn i pre ++ s) = None) ->
  LlmApi.search m (pre ++ s) = LlmApi.search m s.
Proof.
  induction pre as [|c pre IH]; intros H; [reflexivity|].
  cbn [app]. simpl LlmApi.search. rewrite (H 0%nat ltac:(simpl; lia) : m (c :: pre ++ s) = None).
  apply IH. intros i Hi. apply (H (S i)). simpl. lia.
Qed.

Lemma until_explanation_eq s :
  LlmApi.until_explanation s =
  match LlmApi.ci_strip (js "EXPLANATION:") s with
  | Some _ => []
  | None => match s with [] => [] | c :: t => c :: LlmApi.until_explanation t end
  end.
Proof. destruct s; reflexivity. Qed.

Lemma until_explanation_app u E :
  (forall u0 w, u = u0 ++ w -> w <> [] -> LlmApi.ci_strip (js "EXPLANATION:") (w ++ E) = None) ->
  (exists r, LlmApi.ci_strip (js "EXPLANATION:") E = Some r) ->
  LlmApi.until_explanation (u ++ E) = u.
Proof.
  intros Hu [r Hr]. induction u as [|c u IH].
  - cbn [app]. rewrite until_explanation_eq, Hr. reflexivity.
  - cbn [app]. rewrite until_explanation_eq.
    rewrite (Hu [] (c :: u) eq_refl ltac:(discriminate) : LlmApi.ci_strip _ (c :: u ++ E) = None).
    rewrite IH; [reflexivity|]. intros u0 w Hw Hne. apply (Hu (c :: u0) w); [rewrite Hw|]; auto.
Qed.

Lemma ci_strip_head x p c t :
  LlmApi.ascii_upper c <> x -> LlmApi.ci_strip (x :: p) (c :: t) = None.
Proof. intros H. simpl. apply N.eqb_neq in H. rewrite H. reflexivity. Qed.

Lemma digit_upper c : is_digit c = true -> LlmApi.ascii_upper c = c.
Proof.
  intros H. apply is_digit_cases in H. repeat (destruct H as [->|H]; [reflexivity|]).
  subst; reflexivity.
Qed.

Lemma take_digits_app d c r :
  forallb is_digit d = true -> is_digit c = false -> take_digits (d ++ c :: r) = (d, c :: r).
Proof.
  intros Hd Hc. induction d as [|x d IH]; simpl in *; [rewrite Hc; reflexivity|].
  apply andb_true_iff in Hd as [-> Hd]. rewrite (IH Hd). reflexivity.
Qed.

Lemma ci_strip_self p r :
  forallb (fun y => LlmApi.ascii_upper y =? y) p = true -> LlmApi.ci_strip p (p ++ r) = Some r.
Proof.
  induction p as [|y p IH]; intros H; [reflexivity|].
  simpl in H. apply andb_true_iff in H as [H1 H2]. cbn [app LlmApi.ci_strip].
  rewrite H1. exact (IH H2).
Qed.

Lemma In_skipn_l {A} (a : A) i l : In a (skipn i l) -> In a l.
Proof.
  revert l; induction i as [|i IH]; intros l H; [exact H|].
  destruct l as [|y l]; [destruct H|]. right. exact (IH l H).
Qed.

(** On an answer in the requested format SCORE: / FEEDBACK: / EXPLANATION:
    (feedback without a colon), [parseGradingResponse] returns the score
    clamped to [maxPoints] and the trimmed feedback and explanation. *)
Theorem parseGradingResponse_format d f x (m : Q) :
  d <> [] -> forallb is_digit d = true -> ~ In 58 f ->
  exists v q, parseFloat d = NFin v /\
    LlmApi.parseGradingResponse (format_response d f x) (NFin m) =
    LlmApi.mkGradingResult (NFin q) (trim f) (trim x) /\
    (q == if Qle_bool v m then v else m)%Q.
Proof.
  intros Hne Hd Hf.
  destruct d as [|c d']; [contradiction|].
  assert (Hc : is_digit c = true) by (simpl in Hd; apply andb_true_iff in Hd; tauto).
  set (E := js "EXPLANATION: " ++ x).
  (* the score *)
  assert (Hs : LlmApi.search LlmApi.score_at (format_response (c :: d') f x) = Some (c :: d')).
  { apply search_first. unfold LlmApi.score_at, format_response.
    fold E. remember (js "FEEDBACK: " ++ f ++ [10] ++ E) as T.
    change (js "SCORE: " ++ (c :: d') ++ [10] ++ T) with (js "SCORE:" ++ 32 :: (c :: d') ++ [10] ++ T).
    rewrite ci_strip_self by reflexivity.
    cbn [app]. change (skip_js_space (32 :: ?r)) with (skip_js_space r).
    rewrite skip_js_space_stop
      by (apply digit_or_dot_not_space; unfold is_digit_or_dot; rewrite Hc; reflexivity).
    rewrite app_comm_cons, (take_digits_app _ 10 _ Hd eq_refl). reflexivity. }
  (* the feedback *)
  assert (HE : exists r, LlmApi.ci_strip (js "EXPLANATION:") E = Some r).
  { eexists. subst E. change (js "EXPLANATION: " ++ x) with (js "EXPLANATION:" ++ 32 :: x).
    reflexivity. }
  assert (Hfb : exists cap, LlmApi.search LlmApi.feedback_at (format_response (c :: d') f x)
                            = Some cap /\ trim cap = trim f).
  { unfold format_response. fold E.
    rewrite app_assoc, app_assoc, search_skip.
    2:{ intros c0 t Hin. unfold LlmApi.feedback_at.
        change (js "FEEDBACK:") with (70 :: js "EEDBACK:").
        rewrite ci_strip_head; [reflexivity|].
        rewrite !in_app_iff in Hin. destruct Hin as [[Hin|Hin]|Hin].
        - simpl in Hin. repeat (destruct Hin as [<-|Hin]; [discriminate|]). contradiction.
        - rewrite forallb_forall in Hd. rewrite digit_upper by (apply Hd; exact Hin).
          intros ->. specialize (Hd _ Hin). discriminate Hd.
        - destruct Hin as [<-|[]]. discriminate. }
    rewrite search_first with (a := LlmApi.until_explanation
                                     (skip_js_space (f ++ [10] ++ E))).
    2:{ reflexivity. }
    eexists. split; [reflexivity|].
    rewrite skip_js_space_app. destruct (skip_js_space f) as [|h t] eqn:Ef.
    - change (skip_js_space ([10] ++ E)) with (skip_js_space E).
      replace (skip_js_space E) with E by reflexivity.
      destruct HE as [r Hr]. subst E. simpl LlmApi.until_explanation.
      unfold trim at 2. rewrite Ef. reflexivity.
    - rewrite app_assoc, until_explanation_app; [| |exact HE].
      + rewrite trim_snoc_space by reflexivity. rewrite <- Ef. apply trim_skip.
      + intros u0 w Hw Hwne. destruct w as [|y w'] using rev_ind; [contradiction|].
        rewrite app_assoc in Hw. apply app_inj_tail in Hw as [Hw <-].
        rewrite <- app_assoc. apply ci_strip_newline with (L := js "EXPLANATION").
        * simpl. intuition discriminate.
        * intros Hin. apply Hf. apply (In_skip 58 f). rewrite Ef, Hw.
          apply in_or_app. right. exact Hin. }
  (* the explanation *)
  assert (Hx : exists cap, LlmApi.search LlmApi.explanation_at (format_response (c :: d') f x)
                           = Some cap /\ trim cap = trim x).
  { unfold format_response. fold E.
    rewrite search_skip_pos.
    2:{ intros i Hi. do 7 (destruct i as [|i]; [reflexivity|]). simpl in Hi. lia. }
    rewrite search_skip.
    2:{ intros c0 t Hin. unfold LlmApi.explanation_at.
        change (js "EXPLANATION:") with (69 :: js "XPLANATION:").
        rewrite ci_strip_head; [reflexivity|].
        rewrite forallb_forall in Hd. rewrite digit_upper by (apply Hd; exact Hin).
        intros ->. specialize (Hd _ Hin). discriminate Hd. }
    rewrite search_skip_pos.
    2:{ intros i Hi. destruct i as [|i]; [reflexivity|]. simpl in Hi. lia. }
    rewrite search_skip_pos.
    2:{ intros i Hi. do 10 (destruct i as [|i]; [reflexivity|]). simpl in Hi. lia. }
    rewrite app_assoc, search_skip_pos.
    2:{ intros i Hi. rewrite length_app in Hi. simpl in Hi.
        destruct (Nat.le_gt_cases i (List.length f)) as [Hle|Hgt]; [|lia].
        rewrite skipn_app. replace (i - List.length f)%nat with 0%nat by lia.
        simpl skipn at 2. unfold LlmApi.explanation_at.
        rewrite <- app_assoc.
        change (js "EXPLANATION:") with (js "EXPLANATION" ++ [58]). cbn [app].
        rewrite ci_strip_newline; [reflexivity| simpl; intuition discriminate |].
        intros Hin. apply Hf. apply (In_skipn_l _ _ _ Hin). }
    exists (skip_js_space x). split; [apply search_first; reflexivity|]. apply trim_skip. }
  destruct (parseFloat_digit c d' Hc) as [v [Hv Hv0]].
  destruct (clamp_value v m Hv0) as [q [Hq Hqe]].
  destruct Hfb as [fb [Hfb1 Hfb2]], Hx as [xp [Hx1 Hx2]].
  exists v, q. split; [exact Hv|]. split; [|exact Hqe].
  unfold LlmApi.parseGradingResponse. rewrite Hs, Hfb1, Hx1, Hv, Hq, Hfb2, Hx2. reflexivity.
Qed.

(** *** main: batches and the grading run *)

Lemma batches_from_concat {A} (l : list A) fuel i :
  (List.length l <= i + 10 * fuel)%nat ->
  List.concat (MainFlow.batches_from fuel i l) = skipn i l /\
  Forall (fun b => (1 <= List.length b <= 10)%nat) (MainFlow.batches_from fuel i l).
Proof.
  revert i; induction fuel as [|f IH]; intros i Hl; cbn [MainFlow.batches_from].
  - rewrite skipn_all2 by lia. split; [reflexivity|constructor].
  - destruct (Nat.ltb_spec i (List.length l)) as [Hi|Hi].
    + destruct (IH (i + 10)%nat ltac:(lia)) as [Hc Hf]. split.
      * cbn [List.concat]. rewrite Hc, Nat.add_comm, <- skipn_skipn. apply firstn_skipn.
      * constructor; [|exact Hf]. rewrite length_firstn, length_skipn. lia.
    + rewrite skipn_all2 by lia. split; [reflexivity|constructor].
Qed.

Lemma make_batches_concat {A} (l : list A) :
  List.concat (MainFlow.make_batches l) = l /\
  Forall (fun b => (1 <= List.length b <= 10)%nat) (MainFlow.make_batches l).
Proof.
  unfold MainFlow.make_batches. apply batches_from_concat. lia.
Qed.

(** The batches of [main] hold between 1 and 10 submissions each and, in
    order, are exactly the submissions to grade. *)
Theorem make_batches_partition {A} (l : list A) :
  List.concat (MainFlow.make_batches l) = l /\
  Forall (fun b => (1 <= List.length b <= 10)%nat) (MainFlow.make_batches l).
Proof.
  unfold MainFlow.make_batches. apply batches_from_concat. lia.
Qed.

Section RunMore.

Variable num_to_string : Q -> jstr.

Variable native_message : exn -> jstr.

Variable now : jstr.

Variables (to_lower : jstr -> jstr) (file_exists : jstr -> bool)
  (read_text excel_content zip_content : jstr -> Exc jstr).

Variable has_question : jstr -> bool.

Variable llm : SubmissionInfo -> jstr -> Exc jstr.

Let G (s : SubmissionInfo) : GradingResult :=
  gradeSubmission num_to_string native_message now s (llm s content_undefined).

Lemma processSubmission_graded s :
  MainFlow.processSubmission num_to_string native_message now to_lower file_exists
    read_text excel_content zip_content llm s = Some (G s).
Proof. reflexivity. Qed.

Lemma run_batch_graded st p e batch :
  MainFlow.run_batch num_to_string native_message now to_lower file_exists
    read_text excel_content zip_content llm (st, p, e) batch =
  (st ++ map G batch, (p + List.length batch)%nat, e).
Proof.
  unfold MainFlow.run_batch. revert st p.
  induction batch as [|s batch IH]; intros st p; cbn [map fold_left].
  - rewrite app_nil_r, Nat.add_0_r. reflexivity.
  - rewrite processSubmission_graded. cbn [MainFlow.record_result]. rewrite IH.
    unfold ResultStorage.addResult. rewrite <- app_assoc. cbn [List.length map app].
    rewrite Nat.add_succ_r. reflexivity.
Qed.

Lemma fold_run_batch bs st p e :
  fold_left (MainFlow.run_batch num_to_string native_message now to_lower file_exists
    read_text excel_content zip_content llm) bs (st, p, e) =
  (st ++ map G (List.concat bs), (p + List.length (List.concat bs))%nat, e).
Proof.
  revert st p; induction bs as [|b bs IH]; intros st p; simpl.
  - rewrite app_nil_r, Nat.add_0_r. reflexivity.
  - rewrite run_batch_graded, IH, map_app, app_assoc, length_app, Nat.add_assoc.
    reflexivity.
Qed.

Lemma gradeSubmission_key s r :
  studentId (gradeSubmission num_to_string native_message now s r) = sub_studentId s /\
  questionId (gradeSubmission num_to_string native_message now s r) = sub_questionId s.
Proof.
  unfold gradeSubmission, try_catch, grade_try, bind.
  destruct r as [response|e]; [|simpl; auto].
  destruct response as [|c t]; [simpl; auto|].
  destruct (js_ToString num_to_string _); [apply parseResponse_key | simpl; auto].
Qed.

Lemma main_run_eq store0 subs :
  MainFlow.main_run num_to_string native_message now to_lower file_exists read_text
    excel_content zip_content has_question llm store0 subs =
  (store0 ++ map G (MainFlow.to_grade has_question store0 subs),
   List.length (MainFlow.to_grade has_question store0 subs), O).
Proof.
  unfold MainFlow.main_run. rewrite fold_run_batch.
  destruct (make_batches_concat (MainFlow.to_grade has_question store0 subs)) as [-> _].
  reflexivity.
Qed.

End RunMore.

(** [main] never counts an error: the path handed to the extractor is
    [undefined], so every submission to grade is graded on the content
    "Error extracting content: File does not exist: undefined", and its
    result is appended to the loaded store in order. *)
Theorem main_run_grades_all num_to_string native_message now to_lower file_exists
  read_text excel_content zip_content has_question llm store0 subs :
  MainFlow.main_run num_to_string native_message now to_lower file_exists read_text
    excel_content zip_content has_question llm store0 subs =
  (store0 ++ map (fun s => gradeSubmission num_to_string native_message now s
                             (llm s content_undefined))
                 (MainFlow.to_grade has_question store0 subs),
   List.length (MainFlow.to_grade has_question store0 subs), O).
Proof. apply main_run_eq. Qed.

Lemma getSubmissionFiles_nodup (assignmentId dir : jstr)
  (listing : option (list FileParser.entry)) (t : FileParser.AssignmentType) :
  NoDup (map sub_studentId (FileParser.getSubmissionFiles assignmentId dir listing t)).
Proof.
  destruct listing as [es|]; [|constructor].
  unfold FileParser.getSubmissionFiles. rewrite fold_step_parsed.
  destruct (keys_ok_fold (parsed_files assignmentId dir t es) [] (conj (NoDup_nil _) (Forall_nil _)))
    as [Hnd Hk].
  replace (map sub_studentId (map snd (fold_left FileParser.add_info (parsed_files assignmentId dir t es) [])))
    with (map fst (fold_left FileParser.add_info (parsed_files assignmentId dir t es) []));
    [exact Hnd|].
  rewrite map_map. apply map_ext_Forall. eapply Forall_impl; [|exact Hk].
  intros kv H; simpl in H; symmetry; exact H.
Qed.

Lemma NoDup_map_filter {A B} (f : A -> B) (P : A -> bool) l :
  NoDup (map f l) -> NoDup (map f (filter P l)).
Proof.
  induction l as [|a l IH]; simpl; intros H; [constructor|].
  inversion H as [|x y Hn Hl]; subst. destruct (P a); [|auto]. simpl. constructor; auto.
  intros Hin. apply Hn. apply in_map_iff in Hin as (b & <- & Hb).
  apply filter_In in Hb as [Hb _]. apply in_map. exact Hb.
Qed.

Lemma resultExists_In sid qid st :
  ResultStorage.resultExists sid qid st = true <-> In (sid, qid) (map result_key st).
Proof.
  unfold ResultStorage.resultExists. rewrite existsb_exists, in_map_iff. split.
  - intros (r & Hr & He). apply andb_true_iff in He as [H1 H2].
    apply jstr_eqb_eq in H1, H2. exists r. unfold result_key. rewrite H1, H2. auto.
  - intros (r & Hk & Hr). unfold result_key in Hk. injection Hk as <- <-.
    exists r. rewrite !jstr_eqb_refl. auto.
Qed.

(** [main] run on the records of [getSubmissionFiles] keeps the store free
    of duplicate keys (studentId, questionId) when the loaded store is, and
    afterwards every record whose question is loaded has a result. *)
Theorem main_run_after_getSubmissionFiles num_to_string native_message now to_lower
  file_exists read_text excel_content zip_content has_question llm
  assignmentId dir listing t store0 :
  NoDup (map result_key store0) ->
  let subs := FileParser.getSubmissionFiles assignmentId dir listing t in
  let st := fst (fst (MainFlow.main_run num_to_string native_message now to_lower
                        file_exists read_text excel_content zip_content has_question llm
                        store0 subs)) in
  NoDup (map result_key st) /\
  (forall s, In s subs -> has_question (sub_questionId s) = true ->
     ResultStorage.resultExists (sub_studentId s) (sub_questionId s) st = true).
Proof.
  intros H0 subs st. subst st. rewrite main_run_eq. cbn [fst].
  set (G := fun s => gradeSubmission num_to_string native_message now s (llm s content_undefined)).
  set (tg := MainFlow.to_grade has_question store0 subs).
  assert (Hkey : map result_key (map G tg) = map (fun s => (sub_studentId s, sub_questionId s)) tg).
  { rewrite map_map. apply map_ext. intros s. unfold result_key, G.
    destruct (gradeSubmission_key num_to_string native_message now s (llm s content_undefined))
      as [-> ->]. reflexivity. }
  split.
  - rewrite map_app, Hkey. apply NoDup_app; [exact H0| |].
    + apply (NoDup_map_inv fst). rewrite map_map. cbn beta. unfold tg, MainFlow.to_grade.
      apply NoDup_map_filter, getSubmissionFiles_nodup.
    + intros k Hk Hk'. apply in_map_iff in Hk' as (s & <- & Hs).
      unfold tg, MainFlow.to_grade in Hs. apply filter_In in Hs as [_ Hs].
      apply andb_true_iff in Hs as [_ Hs]. apply negb_true_iff in Hs.
      apply resultExists_In in Hk. rewrite Hk in Hs. discriminate.
  - intros s Hs Hq. apply resultExists_In. rewrite map_app, Hkey, in_app_iff.
    destruct (ResultStorage.resultExists (sub_studentId s) (sub_questionId s) store0) eqn:E.
    + left. apply resultExists_In. exact E.
    + right. apply (in_map (fun s => (sub_studentId s, sub_questionId s))).
      unfold tg, MainFlow.to_grade. apply filter_In. rewrite Hq, E. auto.
Qed.

(** *** AssignmentProcessor: deduction removal *)

Lemma skip_js_space_suffix s : exists p, s = p ++ skip_js_space s.
Proof.
  induction s as [|c s IH]; [exists []; reflexivity|]. simpl.
  destruct (is_js_space c).
  - destruct IH as [p Hp]. exists (c :: p). simpl. congruence.
  - exists []. reflexivity.
Qed.

Lemma deduct_core_suffix s r :
  Engine.deduct_core s = Some r -> exists pre, s = pre ++ r /\ In Engine.ch_kou pre.
Proof.
  unfold Engine.deduct_core. destruct s as [|k t]; [discriminate|].
  destruct (N.eqb_spec k Engine.ch_kou) as [->|]; [|discriminate].
  destruct (skip_js_space_suffix t) as [p1 Hp1].
  destruct (skip_js_space t) as [|d t2]; [discriminate|].
  destruct ((49 <=? d) && (d <=? 57)); [|discriminate].
  destruct (skip_js_space_suffix t2) as [p2 Hp2].
  destruct (skip_js_space t2) as [|f rest]; [discriminate|].
  destruct (f =? Engine.ch_fen); [|discriminate]. intros H; injection H as <-.
  exists (Engine.ch_kou :: p1 ++ d :: p2 ++ [f]). split; [|left; reflexivity].
  rewrite Hp1, Hp2. cbn [app]. rewrite <- app_assoc. cbn [app]. rewrite <- app_assoc.
  reflexivity.
Qed.

Lemma deduct_at_suffix s r :
  Engine.deduct_at s = Some r -> exists pre, s = pre ++ r /\ In Engine.ch_kou pre.
Proof.
  unfold Engine.deduct_at.
  destruct s as [|p t] eqn:Es; [apply deduct_core_suffix|].
  destruct (Engine.is_deduct_punct p).
  - destruct (Engine.deduct_core (skip_js_space t)) as [r'|] eqn:E.
    + intros H; injection H as <-. apply deduct_core_suffix in E as (pre & Hpre & Hk).
      destruct (skip_js_space_suffix t) as [p1 Hp1].
      exists (p :: p1 ++ pre). split.
      * rewrite Hp1 at 1. rewrite Hpre. simpl. rewrite app_assoc. reflexivity.
      * right. apply in_or_app. right. exact Hk.
    + rewrite <- Es. apply deduct_core_suffix.
  - rewrite <- Es. apply deduct_core_suffix.
Qed.

Lemma subseq_refl s : subseq s s.
Proof. induction s; constructor; auto. Qed.

Lemma subseq_app_l a p b : subseq a b -> subseq a (p ++ b).
Proof. intros H. induction p as [|c p IH]; [exact H|]. apply subseq_drop, IH. Qed.

Lemma replace_deduct_fuel_subseq fuel s : subseq (Engine.replace_deduct_fuel fuel s) s.
Proof.
  revert s; induction fuel as [|f IH]; intros s; [apply subseq_refl|].
  destruct s as [|c t]; [constructor|]. cbn [Engine.replace_deduct_fuel].
  destruct (Engine.deduct_at (c :: t)) as [rest|] eqn:E.
  - apply deduct_at_suffix in E as (pre & Hs & _). rewrite Hs. apply subseq_app_l, IH.
  - apply subseq_keep, IH.
Qed.

(** The removal of deduction phrases in the single-question feedback only
    deletes code units: the result is a subsequence of the comment. *)
Theorem replace_deduct_subseq (s : jstr) : subseq (Engine.replace_deduct s) s.
Proof. apply replace_deduct_fuel_subseq. Qed.

Lemma replace_deduct_fuel_no_kou fuel s :
  ~ In Engine.ch_kou s -> Engine.replace_deduct_fuel fuel s = s.
Proof.
  revert s; induction fuel as [|f IH]; intros s Hs; [reflexivity|].
  destruct s as [|c t]; [reflexivity|]. cbn [Engine.replace_deduct_fuel].
  destruct (Engine.deduct_at (c :: t)) as [rest|] eqn:E.
  - apply deduct_at_suffix in E as (pre & Heq & Hk). exfalso. apply Hs.
    rewrite Heq. apply in_or_app. left. exact Hk.
  - rewrite IH; [reflexivity|]. intros H. apply Hs. right. exact H.
Qed.

(** A comment without the character 扣 is submitted unchanged. *)
Theorem replace_deduct_no_kou (s : jstr) :
  ~ In Engine.ch_kou s -> Engine.replace_deduct s = s.
Proof. apply replace_deduct_fuel_no_kou. Qed.

(** *** ContentExtractionService.extractContent: the dispatch *)

Section ExtractMore.

Import ContentExtraction.

Variables (to_lower : jstr -> jstr) (file_exists : jstr -> bool)
  (read_text excel_content zip_content : jstr -> Exc jstr) (native_message : exn -> jstr).

Lemma find_handler p ext :
  to_lower (extname p) = ext ->
  find (fun x => canHandle to_lower x p) extractors =
  find (fun x => match x with
                 | TextExtractor => existsb (jstr_eqb ext) text_exts
                 | ExcelExtractor => existsb (jstr_eqb ext) excel_exts
                 | PDFExtractor => jstr_eqb ext (js ".pdf")
                 | DocxExtractor => jstr_eqb ext (js ".docx")
                 | ZipExtractor => existsb (jstr_eqb ext) zip_exts
                 | DefaultExtractor => true
                 end) extractors.
Proof. intros <-. reflexivity. Qed.

Lemma existsb_jstr_In ext l : existsb (jstr_eqb ext) l = true <-> In ext l.
Proof.
  rewrite existsb_exists. split.
  - intros (y & Hy & E). apply jstr_eqb_eq in E. subst. exact Hy.
  - intros H. exists ext. split; [exact H|apply jstr_eqb_refl].
Qed.

End ExtractMore.

Section ExtractThms.

Import ContentExtraction.

Variables (to_lower : jstr -> jstr) (file_exists : jstr -> bool)
  (read_text excel_content zip_content : jstr -> Exc jstr) (native_message : exn -> jstr).

(** A path that does not exist gives the error text, and no extractor runs. *)
Theorem extractContent_missing (p : jstr) :
  file_exists p = false ->
  extractContent to_lower file_exists read_text excel_content zip_content native_message (Some p)
  = js "Error extracting content: File does not exist: " ++ p.
Proof.
  intros H. unfold extractContent, extract_try. rewrite H. reflexivity.
Qed.

(** An existing file with a text, spreadsheet or archive extension (in any
    letter case) is read by the matching extractor; its failure becomes the
    error text. *)
Theorem extractContent_readers (p : jstr) :
  file_exists p = true ->
  let ext := to_lower (extname p) in
  let run r := extract_outcome native_message r in
  (In ext text_exts ->
   extractContent to_lower file_exists read_text excel_content zip_content native_message (Some p)
   = run (read_text p)) /\
  (In ext excel_exts ->
   extractContent to_lower file_exists read_text excel_content zip_content native_message (Some p)
   = run (excel_content p)) /\
  (In ext zip_exts ->
   extractContent to_lower file_exists read_text excel_content zip_content native_message (Some p)
   = run (zip_content p)).
Proof.
  intros Hex ext run. unfold extractContent, extract_try. rewrite Hex. cbn [negb].
  rewrite (find_handler to_lower p ext eq_refl). clearbody ext. split; [|split]; intros Hin.
  - cbn [find]. rewrite (proj2 (existsb_jstr_In _ _) Hin).
    unfold run, try_catch, extract_outcome, run_extractor. destruct (read_text p); reflexivity.
  - simpl in Hin. repeat (destruct Hin as [Hin|Hin]; [rewrite <- Hin; simpl;
      unfold extract_outcome; destruct (excel_content p); reflexivity|]). destruct Hin.
  - simpl in Hin. repeat (destruct Hin as [Hin|Hin]; [rewrite <- Hin; simpl;
      unfold extract_outcome; destruct (zip_content p); reflexivity|]). destruct Hin.
Qed.

Lemma existsb_jstr_notin ext l : ~ In ext l -> existsb (jstr_eqb ext) l = false.
Proof.
  intros H. destruct (existsb (jstr_eqb ext) l) eqn:E; [|reflexivity].
  exfalso. apply H, existsb_jstr_In, E.
Qed.

(** An existing PDF or DOCX file gives the placeholder naming its base name;
    an existing file whose extension no extractor lists gives the
    [Unsupported file] text of the fallback extractor. *)
Theorem extractContent_placeholders (p : jstr) :
  file_exists p = true ->
  let ext := to_lower (extname p) in
  let ex := extractContent to_lower file_exists read_text excel_content zip_content
              native_message (Some p) in
  (ext = js ".pdf" -> ex = js "[PDF file: " ++ FileParser.basename p ++ js "]") /\
  (ext = js ".docx" -> ex = js "[DOCX file: " ++ FileParser.basename p ++ js "]") /\
  (~ In ext (text_exts ++ excel_exts ++ [js ".pdf"; js ".docx"] ++ zip_exts) ->
   ex = js "[Unsupported file: " ++ FileParser.basename p ++ js "]").
Proof.
  intros Hex ext ex. subst ex. unfold extractContent, extract_try. rewrite Hex. cbn [negb].
  rewrite (find_handler to_lower p ext eq_refl). clearbody ext.
  split; [|split]; intros Hin.
  - rewrite Hin. reflexivity.
  - rewrite Hin. reflexivity.
  - rewrite !in_app_iff in Hin.
    rewrite (existsb_jstr_notin ext text_exts), (existsb_jstr_notin ext excel_exts),
      (existsb_jstr_notin ext zip_exts) by tauto.
    assert (Hp : jstr_eqb ext (js ".pdf") = false).
    { destruct (jstr_eqb ext (js ".pdf")) eqn:E; [|reflexivity].
      apply jstr_eqb_eq in E. exfalso. apply Hin. right. right. left. left. auto. }
    assert (Hd : jstr_eqb ext (js ".docx") = false).
    { destruct (jstr_eqb ext (js ".docx")) eqn:E; [|reflexivity].
      apply jstr_eqb_eq in E. exfalso. apply Hin. right. right. left. right. left. auto. }
    cbn [find]. rewrite Hp, Hd. reflexivity.
Qed.

End ExtractThms.

(** *** loadQuestions: rubric files and the question map *)

Lemma strip_hash c p t : c <> 35 -> strip_prefix (35 :: p) (c :: t) = None.
Proof.
  intros H. cbn [strip_prefix]. destruct (N.eqb_spec 35 c); [congruence|reflexivity].
Qed.

Lemma until_marker_eq mk s :
  LoadQuestions.until_marker mk s =
  match strip_prefix mk s with
  | Some _ => []
  | None => match s with [] => [] | c :: t => c :: LoadQuestions.until_marker mk t end
  end.
Proof. destruct s; reflexivity. Qed.

Lemma until_marker_app mk u E :
  ~ In 35 u -> (exists r, strip_prefix (35 :: mk) E = Some r) ->
  LoadQuestions.until_marker (35 :: mk) (u ++ E) = u.
Proof.
  intros Hu [r Hr]. induction u as [|c u IH].
  - cbn [app]. rewrite until_marker_eq, Hr. reflexivity.
  - cbn [app]. rewrite until_marker_eq, strip_hash by (intros ->; apply Hu; left; reflexivity).
    rewrite IH; [reflexivity|]. intros H. apply Hu. right. exact H.
Qed.

Lemma trim_until mk d E :
  ~ In 35 d -> (exists r, strip_prefix (35 :: mk) (35 :: E) = Some r) ->
  trim (LoadQuestions.until_marker (35 :: mk) (skip_js_space (d ++ 10 :: 35 :: E))) = trim d.
Proof.
  intros Hd HE. rewrite skip_js_space_app. destruct (skip_js_space d) as [|h t] eqn:Ed.
  - change (skip_js_space (10 :: 35 :: E)) with (35 :: E).
    destruct HE as [r Hr]. rewrite until_marker_eq, Hr. unfold trim at 2. rewrite Ed. reflexivity.
  - change (10 :: 35 :: E) with ([10] ++ 35 :: E). rewrite app_assoc, until_marker_app; [| |exact HE].
    + rewrite trim_snoc_space by reflexivity. rewrite <- Ed. apply trim_skip.
    + rewrite in_app_iff. intros [H|[H|[]]]; [|discriminate H].
      apply Hd, (In_skip 35 d). rewrite Ed. exact H.
Qed.

Lemma question_at_hash c t : c <> 35 -> LoadQuestions.question_at (c :: t) = None.
Proof.
  intros H. unfold LoadQuestions.question_at. change (js "#Question") with (35 :: js "Question").
  rewrite strip_hash by exact H. reflexivity.
Qed.

Lemma rubric_at_hash c t : c <> 35 -> LoadQuestions.rubric_at (c :: t) = None.
Proof.
  intros H. unfold LoadQuestions.rubric_at. change (js "#Rubric") with (35 :: js "Rubric").
  rewrite strip_hash by exact H. reflexivity.
Qed.

Lemma maxpoint_at_hash c t : c <> 35 -> LoadQuestions.maxpoint_at (c :: t) = None.
Proof.
  intros H. unfold LoadQuestions.maxpoint_at. change (js "#MaxPoint") with (35 :: js "MaxPoint").
  rewrite strip_hash by exact H. reflexivity.
Qed.

Lemma take_digits_all n : forallb is_digit n = true -> take_digits n = (n, []).
Proof.
  induction n as [|c n IH]; [reflexivity|]. simpl. intros H.
  apply andb_true_iff in H as [-> H]. rewrite (IH H). reflexivity.
Qed.

Lemma no_hash_skip {A} (m : jstr -> option A) pre s :
  (forall c t, c <> 35 -> m (c :: t) = None) -> ~ In 35 pre ->
  LlmApi.search m (pre ++ s) = LlmApi.search m s.
Proof.
  intros Hm Hp. apply search_skip. intros c t Hc. apply Hm. intros ->. exact (Hp Hc).
Qed.

(** A rubric file #Question / #Rubric / #MaxPoint, with sections without
    [#], gives the trimmed description and rubric and the maximum. *)
Theorem parse_rubric_roundtrip (d r n : jstr) :
  ~ In 35 d -> ~ In 35 r -> n <> [] -> forallb is_digit n = true ->
  LoadQuestions.parse_rubric (rubric_file d r n) = (trim d, trim r, Some (parseFloat n)).
Proof.
  intros Hd Hr Hn Hdig.
  assert (Hnl : ~ In 35 [10]) by (intros [H|[]]; discriminate H).
  assert (HQ : ~ In 35 (js "Question ")) by (simpl; intuition discriminate).
  assert (HR : ~ In 35 (js "Rubric ")) by (simpl; intuition discriminate).
  unfold LoadQuestions.parse_rubric, rubric_file.
  (* description *)
  rewrite (search_first _ _ (LoadQuestions.until_marker (js "#Rubric")
             (skip_js_space (d ++ [10] ++ js "#Rubric " ++ r ++ [10] ++ js "#MaxPoint " ++ n))))
    by reflexivity.
  replace (trim (LoadQuestions.until_marker (js "#Rubric")
            (skip_js_space (d ++ [10] ++ js "#Rubric " ++ r ++ [10] ++ js "#MaxPoint " ++ n))))
    with (trim d)
    by (symmetry; exact (trim_until (js "Rubric") d (js "Rubric " ++ r ++ [10] ++ js "#MaxPoint " ++ n)
                          Hd ltac:(eexists; reflexivity))).
  (* rubric *)
  change (js "#Question " ++ ?x) with (35 :: js "Question " ++ x).
  rewrite search_skip_one by reflexivity.
  rewrite no_hash_skip by (exact rubric_at_hash || exact HQ).
  rewrite no_hash_skip by (exact rubric_at_hash || exact Hd).
  rewrite no_hash_skip by (exact rubric_at_hash || exact Hnl).
  rewrite (search_first _ _ (LoadQuestions.until_marker (js "#MaxPoint")
             (skip_js_space (r ++ [10] ++ js "#MaxPoint " ++ n))))
    by reflexivity.
  replace (trim (LoadQuestions.until_marker (js "#MaxPoint")
            (skip_js_space (r ++ [10] ++ js "#MaxPoint " ++ n))))
    with (trim r)
    by (symmetry; exact (trim_until (js "MaxPoint") r (js "MaxPoint " ++ n)
                          Hr ltac:(eexists; reflexivity))).
  (* maxPoint *)
  rewrite search_skip_one by reflexivity.
  rewrite no_hash_skip by (exact maxpoint_at_hash || exact HQ).
  rewrite no_hash_skip by (exact maxpoint_at_hash || exact Hd).
  rewrite no_hash_skip by (exact maxpoint_at_hash || exact Hnl).
  change (js "#Rubric " ++ ?x) with (35 :: js "Rubric " ++ x).
  rewrite search_skip_one by reflexivity.
  rewrite no_hash_skip by (exact maxpoint_at_hash || exact HR).
  rewrite no_hash_skip by (exact maxpoint_at_hash || exact Hr).
  rewrite no_hash_skip by (exact maxpoint_at_hash || exact Hnl).
  rewrite (search_first _ _ n).
  - reflexivity.
  - unfold LoadQuestions.maxpoint_at.
    change (js "#MaxPoint " ++ n) with (js "#MaxPoint" ++ 32 :: n).
    rewrite strip_prefix_app. change (skip_js_space (32 :: n)) with (skip_js_space n).
    destruct n as [|c n']; [contradiction|].
    assert (Hc : is_digit c = true) by (simpl in Hdig; apply andb_true_iff in Hdig; tauto).
    rewrite skip_js_space_stop
      by (apply digit_or_dot_not_space; unfold is_digit_or_dot; rewrite Hc; reflexivity).
    rewrite take_digits_all by exact Hdig. reflexivity.
Qed.

Lemma search_no_hash {A} (m : jstr -> option A) s :
  (forall c t, c <> 35 -> m (c :: t) = None) -> m [] = None -> ~ In 35 s ->
  LlmApi.search m s = None.
Proof.
  intros Hm H0 Hs. rewrite <- (app_nil_r s). rewrite no_hash_skip by assumption.
  simpl. rewrite H0. reflexivity.
Qed.

(** A rubric file without any [#] has no description and no maximum, and
    its whole trimmed content is the rubric. *)
Theorem parse_rubric_plain (content : jstr) :
  ~ In 35 content -> LoadQuestions.parse_rubric content = ([], trim content, None).
Proof.
  intros H. unfold LoadQuestions.parse_rubric.
  rewrite (search_no_hash LoadQuestions.question_at) by (exact question_at_hash || reflexivity || exact H).
  rewrite (search_no_hash LoadQuestions.rubric_at) by (exact rubric_at_hash || reflexivity || exact H).
  rewrite (search_no_hash LoadQuestions.maxpoint_at) by (exact maxpoint_at_hash || reflexivity || exact H).
  reflexivity.
Qed.

Section LoadMore.

Import LoadQuestions.

Lemma qget_qset k k' v m :
  qget k (qset k' v m) = if jstr_eqb k' k then Some v else qget k m.
Proof.
  induction m as [|[k0 v0] m IH]; simpl.
  - destruct (jstr_eqb k' k); reflexivity.
  - destruct (jstr_eqb k0 k') eqn:E0.
    + apply jstr_eqb_eq in E0. subst k0. simpl. destruct (jstr_eqb k' k); reflexivity.
    + simpl. rewrite IH. destruct (jstr_eqb k0 k) eqn:E1; [|reflexivity].
      apply jstr_eqb_eq in E1. subst k0. rewrite jstr_eqb_sym, E0. reflexivity.
Qed.

Lemma load_fold_keep read dir files m k q :
  Forall (fun g => file_question_id g <> k \/ exists e, read (FileParser.path_join dir g) = Throw e) files ->
  qget k m = Some q -> qget k (fold_left (load_step read dir) files m) = Some q.
Proof.
  revert m; induction files as [|g files IH]; intros m Hf Hm; [exact Hm|].
  apply Forall_cons_iff in Hf as [Hg Hf]. simpl. apply IH; [exact Hf|].
  unfold load_step. destruct Hg as [Hg|[e He]].
  - destruct (read _) as [c|e]; [|exact Hm]. destruct (parse_rubric c) as [[ds rb] mp].
    rewrite qget_qset. destruct (jstr_eqb (file_question_id g) k) eqn:E; [|exact Hm].
    apply jstr_eqb_eq in E. contradiction.
  - rewrite He. exact Hm.
Qed.

End LoadMore.

(** A readable rubric file whose questionId no later readable file shares
    gives the entry of that questionId, built from its content. *)
Theorem loadQuestions_last_file dir read pre f post content :
  read (FileParser.path_join dir f) = Ret content ->
  Forall (fun g => LoadQuestions.file_question_id g <> LoadQuestions.file_question_id f \/
                   exists e, read (FileParser.path_join dir g) = Throw e) post ->
  LoadQuestions.qget (LoadQuestions.file_question_id f)
    (LoadQuestions.loadQuestions true (Some (pre ++ f :: post)) read dir) =
  Some (let '(ds, rb, mp) := LoadQuestions.parse_rubric content in
        LoadQuestions.mkQuestion (LoadQuestions.file_question_id f) ds rb mp).
Proof.
  intros Hr Hpost. unfold LoadQuestions.loadQuestions. cbn [negb].
  rewrite fold_left_app. cbn [fold_left]. apply load_fold_keep; [exact Hpost|].
  unfold LoadQuestions.load_step. rewrite Hr.
  destruct (LoadQuestions.parse_rubric content) as [[ds rb] mp].
  rewrite qget_qset, jstr_eqb_refl. reflexivity.
Qed.

(** ** Witnesses of the further properties *)

Lemma parseFileName_single_roundtrip_witness :
  let path := FileParser.path_join (js "dl")
                (single_name true (js "2021001") (js "123456") (js "7654321") (js "hw1.pdf")) in
  FileParser.parseFileName (js "a1") path FileParser.SINGLE =
  Some (mkSubmission (js "2021001") (js "123456") (js "a1") (js "7654321") [path]).
Proof.
  exact (parseFileName_single_roundtrip (js "a1") (js "dl") (js "2021001") (js "123456")
           (js "7654321") (js "hw1.pdf") true eq_refl eq_refl eq_refl eq_refl eq_refl eq_refl
           ltac:(discriminate)
           ltac:(intros H; simpl in H; repeat (destruct H as [H|H]; [discriminate H|]); exact H)
           eq_refl).
Defined.

Lemma parseFileName_group_roundtrip_witness :
  let path := FileParser.path_join (js "dl")
                (group_name (js "2021001") (js "123456") (js "654321") (js "7654321") (js "a.py")) in
  FileParser.parseFileName (js "a1") path FileParser.GROUP =
  Some (mkSubmission (js "2021001") (js "123456") (js "654321") (js "7654321") [path]).
Proof.
  exact (parseFileName_group_roundtrip (js "a1") (js "dl") (js "2021001") (js "123456")
           (js "654321") (js "7654321") (js "a.py") eq_refl eq_refl eq_refl eq_refl eq_refl eq_refl
           eq_refl eq_refl ltac:(discriminate)
           ltac:(intros H; simpl in H; repeat (destruct H as [H|H]; [discriminate H|]); exact H)
           eq_refl).
Defined.

Lemma parseResponse_text_fallback_witness :
  parseResponse (fun _ => []) (fun _ => []) (js "now")
    (js "```json" ++ [10] ++ text_form (js "8.5") (js "good") ([10] ++ js "```"))
    (js "123456") (js "82751") =
  result_of (js "now") (js "123456") (js "82751")
    (JNum (if num_is_nan (parseFloat (js "8.5")) then NFin 0 else parseFloat (js "8.5")))
    (js "good").
Proof.
  exact (parseResponse_text_fallback (fun _ => []) (fun _ => []) (js "now") (js "123456")
           (js "82751") (js "```json" ++ [10]) (js "8.5") (js "good") ([10] ++ js "```")
           ltac:(intros H; simpl in H; repeat (destruct H as [H|H]; [discriminate H|]); exact H)
           ltac:(discriminate) eq_refl
           ltac:(intros H; simpl in H; repeat (destruct H as [H|H]; [discriminate H|]); exact H)
           eq_refl ltac:(vm_compute; reflexivity)).
Defined.

Lemma batchProcess_timeout_witness :
  Batch.batchProcess (fun _ => []) (js "d") true (Ret (js "batch_1")) 3%nat
    (fun _ => Ret (Batch.mkBatch (js "batch_1") Batch.in_progress None None None))
    (Ret expired_batch)
  = Throw (Error (js "Batch processing timeout after 24 hours")).
Proof.
  apply batchProcess_timeout. intros j Hj.
  exists (Batch.mkBatch (js "batch_1") Batch.in_progress None None None).
  split; [reflexivity|unfold Batch_pending; simpl; auto].
Defined.

Lemma batchProcess_poll_error_witness :
  Batch.batchProcess (fun _ => js "ECONNRESET") (js "d") true (Ret (js "batch_1")) 3%nat
    (fun j => if (j =? 0)%nat
              then Ret (Batch.mkBatch (js "batch_1") Batch.validating None None None)
              else Throw (Error (js "ECONNRESET")))
    (Ret expired_batch)
  = Throw (Error (js "Error checking batch status: " ++ js "ECONNRESET")).
Proof.
  apply (batchProcess_poll_error (fun _ => js "ECONNRESET") (js "d") (js "batch_1")
           (fun j => if (j =? 0)%nat
                     then Ret (Batch.mkBatch (js "batch_1") Batch.validating None None None)
                     else Throw (Error (js "ECONNRESET")))
           (Ret expired_batch) 1%nat 3%nat (Error (js "ECONNRESET"))).
  - intros j Hj. assert (j = 0%nat) as -> by lia.
    exists (Batch.mkBatch (js "batch_1") Batch.validating None None None).
    split; [reflexivity|unfold Batch_pending; simpl; auto].
  - reflexivity.
  - lia.
Defined.

Lemma llm_gradeSubmission_score_bounds_witness :
  exists q, LlmApi.score (LlmApi.gradeSubmission
                            (Ret (Some (js "SCORE: 12" ++ [10] ++ js "FEEDBACK: ok")))
                            (NFin 10)) = NFin q /\ (0 <= q)%Q /\ (q <= 10)%Q.
Proof.
  apply llm_gradeSubmission_score_bounds. unfold Qle. simpl. discriminate.
Defined.

Lemma parseGradingResponse_format_witness :
  exists v q, parseFloat (js "8") = NFin v /\
    LlmApi.parseGradingResponse (format_response (js "8") (js " Clear work. ") (js "ok"))
      (NFin 10) =
    LlmApi.mkGradingResult (NFin q) (trim (js " Clear work. ")) (trim (js "ok")) /\
    (q == if Qle_bool v 10 then v else 10)%Q.
Proof.
  apply parseGradingResponse_format; [discriminate|reflexivity|].
  intros H; simpl in H; repeat (destruct H as [H|H]; [discriminate H|]); exact H.
Defined.

Lemma main_run_after_getSubmissionFiles_witness :
  let subs := FileParser.getSubmissionFiles (js "a1") (js "dl")
                (Some [FileParser.mkEntry (single_name false (js "2021001") (js "123456")
                                             (js "7654321") (js "hw1.txt")) true])
                FileParser.SINGLE in
  let st := fst (fst (MainFlow.main_run (fun _ => []) (fun _ => []) (js "now") (fun s => s)
                        (fun _ => true) (fun _ => Ret []) (fun _ => Ret []) (fun _ => Ret [])
                        (fun _ => true) (fun _ _ => Ret (js "{}")) [] subs)) in
  NoDup (map result_key st) /\
  (forall s, In s subs -> true = true ->
     ResultStorage.resultExists (sub_studentId s) (sub_questionId s) st = true).
Proof.
  exact (main_run_after_getSubmissionFiles (fun _ => []) (fun _ => []) (js "now") (fun s => s)
           (fun _ => true) (fun _ => Ret []) (fun _ => Ret []) (fun _ => Ret [])
           (fun _ => true) (fun _ _ => Ret (js "{}")) (js "a1") (js "dl")
           (Some [FileParser.mkEntry (single_name false (js "2021001") (js "123456")
                                        (js "7654321") (js "hw1.txt")) true])
           FileParser.SINGLE [] (NoDup_nil _)).
Defined.

Lemma replace_deduct_no_kou_witness :
  Engine.replace_deduct (js "Good work, 3 points.") = js "Good work, 3 points.".
Proof.
  apply replace_deduct_no_kou.
  intros H; simpl in H; repeat (destruct H as [H|H]; [discriminate H|]); exact H.
Defined.

Lemma extractContent_missing_witness :
  ContentExtraction.extractContent (fun s => s) (fun _ => false) (fun _ => Ret [])
    (fun _ => Ret []) (fun _ => Ret []) (fun _ => []) (Some (js "dl/a.txt"))
  = js "Error extracting content: File does not exist: " ++ js "dl/a.txt".
Proof.
  exact (extractContent_missing (fun s => s) (fun _ => false) (fun _ => Ret [])
           (fun _ => Ret []) (fun _ => Ret []) (fun _ => []) (js "dl/a.txt") eq_refl).
Defined.

Lemma extractContent_readers_witness :
  ContentExtraction.extractContent
    (map (fun c => if (65 <=? c) && (c <=? 90) then c + 32 else c))
    (fun _ => true) (fun _ => Ret (js "print(1)")) (fun _ => Ret []) (fun _ => Ret [])
    (fun _ => []) (Some (js "dl/Main.PY"))
  = js "print(1)".
Proof.
  exact (proj1 (extractContent_readers
           (map (fun c => if (65 <=? c) && (c <=? 90) then c + 32 else c))
           (fun _ => true) (fun _ => Ret (js "print(1)")) (fun _ => Ret []) (fun _ => Ret [])
           (fun _ => []) (js "dl/Main.PY") eq_refl)
           ltac:(apply existsb_jstr_In; vm_compute; reflexivity)).
Defined.

Lemma extractContent_placeholders_witness :
  ContentExtraction.extractContent
    (map (fun c => if (65 <=? c) && (c <=? 90) then c + 32 else c))
    (fun _ => true) (fun _ => Ret []) (fun _ => Ret []) (fun _ => Ret [])
    (fun _ => []) (Some (js "dl/Report.PDF"))
  = js "[PDF file: " ++ FileParser.basename (js "dl/Report.PDF") ++ js "]".
Proof.
  exact (proj1 (extractContent_placeholders
           (map (fun c => if (65 <=? c) && (c <=? 90) then c + 32 else c))
           (fun _ => true) (fun _ => Ret []) (fun _ => Ret []) (fun _ => Ret [])
           (fun _ => []) (js "dl/Report.PDF") eq_refl)
           ltac:(vm_compute; reflexivity)).
Defined.

Lemma parse_rubric_roundtrip_witness :
  LoadQuestions.parse_rubric (rubric_file (js "What is 2+2?") (js "Answer 4. ") (js "10")) =
  (trim (js "What is 2+2?"), trim (js "Answer 4. "), Some (parseFloat (js "10"))).
Proof.
  apply parse_rubric_roundtrip; [| |discriminate|reflexivity];
    intros H; simpl in H; repeat (destruct H as [H|H]; [discriminate H|]); exact H.
Defined.

Lemma parse_rubric_plain_witness :
  LoadQuestions.parse_rubric (js "  Give full marks for a correct answer. ") =
  ([], trim (js "  Give full marks for a correct answer. "), None).
Proof.
  apply parse_rubric_plain.
  intros H; simpl in H; repeat (destruct H as [H|H]; [discriminate H|]); exact H.
Defined.

Lemma loadQuestions_last_file_witness :
  LoadQuestions.qget (LoadQuestions.file_question_id (js "q1.txt"))
    (LoadQuestions.loadQuestions true (Some ([js "q2.txt"] ++ js "q1.txt" :: [js "q1.bak"]))
       (fun p => if jstr_eqb p (js "qs/q1.txt")
                 then Ret (rubric_file (js "Sum?") (js "Exact.") (js "5"))
                 else Throw (Error (js "EACCES")))
       (js "qs")) =
  Some (let '(ds, rb, mp) := LoadQuestions.parse_rubric
                               (rubric_file (js "Sum?") (js "Exact.") (js "5")) in
        LoadQuestions.mkQuestion (LoadQuestions.file_question_id (js "q1.txt")) ds rb mp).
Proof.
  apply loadQuestions_last_file; [reflexivity|].
  constructor; [right; eexists; reflexivity|constructor].
Defined.
